(** * TETO Coffee API

    A shallow embedding of the HTTP service of [main.py] and of the record
    schemas of [schemas.py], with the properties of the service stated and
    proved over it.

    Layout: Python and BSON values; exceptions and the state-and-exception
    monad in which the handlers run; the document store (the driver's
    collection operations); the access layer of [database.py]; the schemas;
    the route handlers; then the properties. *)

From Stdlib Require Import ZArith Ascii String SpecFloat.
From stdpp Require Import gmap strings list fin_maps pretty.

Local Open Scope string_scope.

(** ** Values

    The values that travel between request, handler and store: the BSON
    types the service uses.  A Python [float] is an IEEE 754 binary64 value
    ([spec_float]); a [datetime] is a count of clock ticks; an [ObjectId] is
    its 96-bit number.  A text is held as its UTF-8 bytes, one [ascii] per
    byte: a character starts at every byte that is not a continuation byte,
    and lengths and slices of texts count characters.  The fixed messages of
    the service are kept as they are written in main.py. *)

Abbreviation ObjectId := N (only parsing).

#[warnings="-register-all"]
Inductive value : Type :=
  | VNone
  | VBool (b : bool)
  | VInt (n : Z)
  | VFloat (x : spec_float)
  | VStr (s : string)
  | VList (l : list value)
  | VDatetime (t : Z)
  | VObjectId (o : ObjectId)
  | VObjectIdShort (binary : list N).

#[global] Instance spec_float_eq_dec : EqDecision spec_float.
Proof. solve_decision. Defined.

#[global] Instance value_eq_dec : EqDecision value.
Proof.
  refine (fix go (a b : value) {struct a} : Decision (a = b) :=
    match a, b with
    | VNone, VNone => left _
    | VBool x, VBool y => cast_if (decide (x = y))
    | VInt x, VInt y => cast_if (decide (x = y))
    | VFloat x, VFloat y => cast_if (decide (x = y))
    | VStr x, VStr y => cast_if (decide (x = y))
    | VList x, VList y => cast_if (@decide (x = y) (@list_eq_dec _ go x y))
    | VDatetime x, VDatetime y => cast_if (decide (x = y))
    | VObjectId x, VObjectId y => cast_if (decide (x = y))
    | VObjectIdShort x, VObjectIdShort y => cast_if (decide (x = y))
    | _, _ => right _
    end); congruence.
Defined.

(** A Python [dict] with string keys. *)
Abbreviation dict := (gmap string value).

(** [Optional[T]]: [None] or a value of [T]. *)
Definition optional {A} (inj : A → value) (o : option A) : value :=
  match o with
  | Some a => inj a
  | None => VNone
  end.

(** A continuation byte of UTF-8, [10xxxxxx]: it belongs to the character
    that started before it. *)
Definition is_continuation (c : ascii) : bool :=
  let n := N_of_ascii c in (128 <=? n)%N && (n <? 192)%N.

(** [len(s)]: the number of characters of a text. *)
Fixpoint py_len (s : string) : nat :=
  match s with
  | EmptyString => O
  | String c s' => if is_continuation c then py_len s' else S (py_len s')
  end.

(** [s[:n]]: the first [n] characters of a text, each with all its bytes. *)
Fixpoint str_prefix (n : nat) (s : string) : string :=
  match s with
  | EmptyString => EmptyString
  | String c s' =>
      if is_continuation c then String c (str_prefix n s')
      else match n with
           | O => EmptyString
           | S n' => String c (str_prefix n' s')
           end
  end.

(** ASCII white space, as the interpreter's [Py_ISSPACE] has it: tab, line
    feed, vertical tab, form feed, carriage return and space. *)
Definition is_space (c : ascii) : bool :=
  let n := N_of_ascii c in
  ((9 <=? n)%N && (n <=? 13)%N) || (n =? 32)%N.

(** ** Exceptions and the handler monad *)

Inductive exn : Type :=
  | HTTPException (status_code : Z) (detail : string)
  | Exception (msg : string).

(** [str(e)]: the message of a plain exception; Starlette prints an
    [HTTPException] as its status and detail. *)
Definition exn_str (e : exn) : string :=
  match e with
  | Exception msg => msg
  | HTTPException c d => pretty c ++ ": " ++ d
  end.

Inductive outcome (A : Type) : Type :=
  | Return (a : A)
  | Raise (e : exn).
Arguments Return {A} a.
Arguments Raise {A} e.

(** A computation over a mutable state [S] that may raise: the state
    written before a [Raise] is kept, as in Python. *)
Definition M (S A : Type) : Type := S → S * outcome A.

Definition ret {S A} (a : A) : M S A := λ s, (s, Return a).

Definition bind {S A B} (c : M S A) (k : A → M S B) : M S B :=
  λ s, match c s with
       | (s', Return a) => k a s'
       | (s', Raise e) => (s', Raise e)
       end.

Definition raise {S A} (e : exn) : M S A := λ s, (s, Raise e).

Definition lift {S A} (o : outcome A) : M S A := λ s, (s, o).

Definition get {S} : M S S := λ s, (s, Return s).

Definition modify {S} (f : S → S) : M S unit := λ s, (f s, Return tt).

(** [try: body  except Exception as e: handler(e)] *)
Definition try_except {S A} (body : M S A) (handler : exn → M S A) : M S A :=
  λ s, match body s with
       | (s', Return a) => (s', Return a)
       | (s', Raise e) => handler e s'
       end.

Declare Scope handler_scope.
Delimit Scope handler_scope with handler.
Notation "x <- c ;; k" := (bind c (λ x, k))
  (at level 100, c at next level, right associativity) : handler_scope.
Notation "c ;;; k" := (bind c (λ _, k))
  (at level 100, right associativity) : handler_scope.
Local Open Scope handler_scope.

(** ** ObjectId: textual encoding

    An [ObjectId] object holds its bytes, [binary].  [ObjectId(s)] on a text
    takes a text of 24 characters and reads its bytes with [bytes.fromhex],
    which skips ASCII white space before each pair of hexadecimal digits: 24
    digits give the 12 bytes of an identifier; a text of 24 characters with
    white space in it gives an object of fewer bytes, which is no stored
    document's identifier.  An identifier prints as 24 lower-case
    hexadecimal digits. *)

Definition hex_digit_value (c : ascii) : option N :=
  let n := N_of_ascii c in
  if (48 <=? n)%N && (n <=? 57)%N then Some (n - 48)%N
  else if (97 <=? n)%N && (n <=? 102)%N then Some (n - 87)%N
  else if (65 <=? n)%N && (n <=? 70)%N then Some (n - 55)%N
  else None.

(** [bytes.fromhex(s)]: white space is skipped where a byte may start; a
    byte is two hexadecimal digits next to each other. *)
Fixpoint bytes_fromhex (s : string) : option (list N) :=
  match s with
  | EmptyString => Some []
  | String c s' =>
      if is_space c then bytes_fromhex s'
      else
        match hex_digit_value c, s' with
        | Some top, String c' s'' =>
            match hex_digit_value c' with
            | Some bot => cons (16 * top + bot)%N <$> bytes_fromhex s''
            | None => None
            end
        | _, _ => None
        end
  end.

(** The number that bytes denote, most significant byte first. *)
Definition int_from_bytes (binary : list N) : N :=
  foldl (λ acc byte, 256 * acc + byte)%N 0%N binary.

(** An [ObjectId] object: the identifier its 12 bytes denote, or its bytes
    when they are not 12. *)
Inductive objectid : Type :=
  | ObjectId12 (o : ObjectId)
  | ObjectIdShort (binary : list N).

(** The BSON value of an [ObjectId] object. *)
Definition bson_objectid (x : objectid) : value :=
  match x with
  | ObjectId12 o => VObjectId o
  | ObjectIdShort binary => VObjectIdShort binary
  end.

(** [ObjectId(s)] on a text. *)
Definition ObjectId_of_str (s : string) : outcome objectid :=
  if decide (py_len s = 24%nat) then
    match bytes_fromhex s with
    | Some binary =>
        if decide (length binary = 12%nat)
        then Return (ObjectId12 (int_from_bytes binary))
        else Return (ObjectIdShort binary)
    | None => Raise (Exception (s ++ " is not a valid ObjectId"))
    end
  else Raise (Exception (s ++ " is not a valid ObjectId")).

Definition hex_char (d : N) : ascii :=
  if (d <? 10)%N then ascii_of_N (48 + d) else ascii_of_N (87 + d).

Fixpoint hex_of (digits : nat) (n : N) (acc : string) : string :=
  match digits with
  | O => acc
  | S k => hex_of k (n / 16)%N (String (hex_char (n mod 16)%N) acc)
  end.

Definition ObjectId_str (o : ObjectId) : string := hex_of 24 o "".

(** ** The document store

    A database is a family of named collections; a collection holds its
    documents under their identifier, which the store keeps unique.  A
    document read back carries its identifier in the field ["_id"]. *)

Abbreviation collection := (gmap N dict).
Abbreviation Database := (gmap string (gmap N dict)).

(** [db[name]]: a collection that was never written to is empty. *)
Definition getcollection (db : Database) (name : string) : collection :=
  default ∅ (db !! name).

(** An equality filter: every field of the filter is present in the
    document with the same value. *)
Definition matches (filt doc : dict) : Prop :=
  map_Forall (λ k v, doc !! k = Some v) filt.

#[global] Instance matches_dec filt doc : Decision (matches filt doc).
Proof. unfold matches. apply _. Defined.

Definition with_id (p : ObjectId * dict) : dict :=
  <["_id" := VObjectId p.1]> p.2.

Definition select (c : collection) (filt : dict) : list (ObjectId * dict) :=
  filter (λ p, matches filt (with_id p)) (map_to_list c).

(** [collection.find(filt)] *)
Definition find (c : collection) (filt : dict) : list dict :=
  with_id <$> select c filt.

(** [db[name].find_one(filt)] *)
Definition find_one (name : string) (filt : dict) : M Database (option dict) :=
  db <- get ;; ret (head (find (getcollection db name) filt)).

(** [ObjectId()]: an identifier the collection does not use yet. *)
Definition ObjectId_new (c : collection) : ObjectId := fresh (dom c).

(** [db[name].insert_one(doc).inserted_id].  A document without ["_id"]
    is given a new identifier; one that brings an identifier already in use
    is refused.  Identifiers of another type are not part of this store. *)
Definition insert_one (name : string) (doc : dict) : M Database ObjectId :=
  db <- get ;;
  let c := getcollection db name in
  match doc !! "_id" with
  | None =>
      let o := ObjectId_new c in
      modify (λ db, <[name := <[o := doc]> c]> db) ;;; ret o
  | Some (VObjectId o) =>
      match c !! o with
      | Some _ => raise (Exception "DuplicateKeyError")
      | None => modify (λ db, <[name := <[o := delete "_id" doc]> c]> db) ;;; ret o
      end
  | Some _ => raise (Exception "InvalidDocument")
  end.

(** [db[name].update_one(filt, {"$set": fields})]: the first matching
    document gets the given fields, keeping its other fields; the identifier
    of a document cannot be changed. *)
Definition update_one (name : string) (filt fields : dict) : M Database unit :=
  db <- get ;;
  let c := getcollection db name in
  match head (select c filt) with
  | None => ret tt
  | Some (o, old) =>
      match fields !! "_id" with
      | None => modify (λ db, <[name := <[o := fields ∪ old]> c]> db)
      | Some v =>
          if decide (v = VObjectId o)
          then modify (λ db, <[name := <[o := (delete "_id" fields) ∪ old]> c]> db)
          else raise (Exception "WriteError")
      end
  end.

(** ** The access layer of database.py *)

(** [record.model_dump()]: the plain structure of a validated record. *)
Class BaseModel (A : Type) := model_dump : A → dict.

(** Modelled from the spec: [create_document] of database.py, which is not
    among the sources.  It "serializes a validated record to a plain
    structure, inserts it as a new document into the named collection, and
    returns the newly generated identifier as a string". *)
Definition create_document `{BaseModel A} (collection_name : string) (data : A)
    : M Database string :=
  new_id <- insert_one collection_name (model_dump data) ;;
  ret (ObjectId_str new_id).

(** Modelled from the spec: [get_documents] of database.py, which is not
    among the sources.  "Given an equality-style filter (mapping from field
    name to expected value, empty mapping = match all), returns all matching
    documents as plain structures, each still carrying its raw identifier
    field"; no sorting or limit. *)
Definition get_documents (collection_name : string) (filter_dict : dict)
    : M Database (list dict) :=
  db <- get ;; ret (find (getcollection db collection_name) filter_dict).

(** ** The schemas of schemas.py

    A record of a schema is a payload that passed validation, defaults
    applied: [EmailStr] and [HttpUrl] fields hold the validated text. *)

Module User.
Record t : Type := mk {
  name : string;
  email : string;
  password_hash : option string;
  avatar_url : option string;
  is_member : bool;
  loyalty_points : Z }.
End User.

Module MenuItem.
Record t : Type := mk {
  title : string;
  description : option string;
  price : spec_float;
  category : string;
  image_url : option string;
  is_active : bool }.
End MenuItem.

Module Reservation.
Record t : Type := mk {
  name : string;
  email : string;
  date : string;
  time : string;
  guests : Z;
  special_requests : option string;
  member_email : option string;
  status : string }.
End Reservation.

Module Event.
Record t : Type := mk {
  title : string;
  description : option string;
  date : string;
  time : string;
  image_url : option string;
  capacity : option Z;
  price : spec_float }.
End Event.

Module EventRegistration.
Record t : Type := mk {
  event_id : string;
  name : string;
  email : string;
  member_email : option string;
  tier : string }.
End EventRegistration.

Module BlogPost.
Record t : Type := mk {
  title : string;
  content : string;
  image_url : option string;
  author : option string;
  tags : list string;
  published_at : option Z }.
End BlogPost.

Module GalleryImage.
Record t : Type := mk {
  title : option string;
  image_url : string;
  description : option string }.
End GalleryImage.

Module NewsletterSubscriber.
Record t : Type := mk {
  email : string;
  name : option string;
  source : option string }.
End NewsletterSubscriber.

Module ContactMessage.
Record t : Type := mk {
  name : string;
  email : string;
  message : string;
  topic : option string }.
End ContactMessage.

#[global] Instance User_model : BaseModel User.t := λ u,
  {[ "name" := VStr (User.name u);
     "email" := VStr (User.email u);
     "password_hash" := optional VStr (User.password_hash u);
     "avatar_url" := optional VStr (User.avatar_url u);
     "is_member" := VBool (User.is_member u);
     "loyalty_points" := VInt (User.loyalty_points u) ]}.

#[global] Instance MenuItem_model : BaseModel MenuItem.t := λ i,
  {[ "title" := VStr (MenuItem.title i);
     "description" := optional VStr (MenuItem.description i);
     "price" := VFloat (MenuItem.price i);
     "category" := VStr (MenuItem.category i);
     "image_url" := optional VStr (MenuItem.image_url i);
     "is_active" := VBool (MenuItem.is_active i) ]}.

#[global] Instance Reservation_model : BaseModel Reservation.t := λ r,
  {[ "name" := VStr (Reservation.name r);
     "email" := VStr (Reservation.email r);
     "date" := VStr (Reservation.date r);
     "time" := VStr (Reservation.time r);
     "guests" := VInt (Reservation.guests r);
     "special_requests" := optional VStr (Reservation.special_requests r);
     "member_email" := optional VStr (Reservation.member_email r);
     "status" := VStr (Reservation.status r) ]}.

#[global] Instance Event_model : BaseModel Event.t := λ e,
  {[ "title" := VStr (Event.title e);
     "description" := optional VStr (Event.description e);
     "date" := VStr (Event.date e);
     "time" := VStr (Event.time e);
     "image_url" := optional VStr (Event.image_url e);
     "capacity" := optional VInt (Event.capacity e);
     "price" := VFloat (Event.price e) ]}.

#[global] Instance EventRegistration_model : BaseModel EventRegistration.t := λ r,
  {[ "event_id" := VStr (EventRegistration.event_id r);
     "name" := VStr (EventRegistration.name r);
     "email" := VStr (EventRegistration.email r);
     "member_email" := optional VStr (EventRegistration.member_email r);
     "tier" := VStr (EventRegistration.tier r) ]}.

#[global] Instance BlogPost_model : BaseModel BlogPost.t := λ p,
  {[ "title" := VStr (BlogPost.title p);
     "content" := VStr (BlogPost.content p);
     "image_url" := optional VStr (BlogPost.image_url p);
     "author" := optional VStr (BlogPost.author p);
     "tags" := VList (VStr <$> BlogPost.tags p);
     "published_at" := optional VDatetime (BlogPost.published_at p) ]}.

#[global] Instance GalleryImage_model : BaseModel GalleryImage.t := λ g,
  {[ "title" := optional VStr (GalleryImage.title g);
     "image_url" := VStr (GalleryImage.image_url g);
     "description" := optional VStr (GalleryImage.description g) ]}.

#[global] Instance NewsletterSubscriber_model : BaseModel NewsletterSubscriber.t := λ s,
  {[ "email" := VStr (NewsletterSubscriber.email s);
     "name" := optional VStr (NewsletterSubscriber.name s);
     "source" := optional VStr (NewsletterSubscriber.source s) ]}.

#[global] Instance ContactMessage_model : BaseModel ContactMessage.t := λ m,
  {[ "name" := VStr (ContactMessage.name m);
     "email" := VStr (ContactMessage.email m);
     "message" := VStr (ContactMessage.message m);
     "topic" := optional VStr (ContactMessage.topic m) ]}.

(** ** Python helpers used by the handlers *)

(** [d.get(k, default)] *)
Definition dict_get (d : dict) (k : string) (dflt : value) : value :=
  default dflt (d !! k).

(** [d[k]] *)
Definition getitem {S} (d : dict) (k : string) : M S value :=
  match d !! k with
  | Some v => ret v
  | None => raise (Exception ("KeyError: " ++ k))
  end.

(** [o[k]] on the result of [find_one] *)
Definition subscript {S} (o : option dict) (k : string) : M S value :=
  match o with
  | Some d => getitem d k
  | None => raise (Exception "TypeError: 'NoneType' object is not subscriptable")
  end.

(** Truth value of the result of [find_one]: [None] and the empty dict are
    false. *)
Definition truthy (o : option dict) : bool :=
  match o with
  | None => false
  | Some d => bool_decide (d ≠ ∅)
  end.

(** Truth value of an optional string: [None] and [""] are false. *)
Definition truthy_str (o : option string) : bool :=
  match o with
  | None => false
  | Some s => bool_decide (s ≠ "")
  end.

(** ** What the diagnostic route observes

    [test_database] looks at the module-level handle [db] (which may be
    [None]), at its attribute [name], at the result of
    [list_collection_names()], and at the process environment. *)

Inductive attribute : Type :=
  | AttrMissing
  | AttrRaises (msg : string)
  | AttrValue (v : value).

Record handle : Type := mkHandle {
  handle_name : attribute;
  list_collection_names : outcome (list string) }.

(** [hasattr(obj, attr)] is false on [AttributeError] only. *)
Definition hasattr {S} (a : attribute) : M S bool :=
  match a with
  | AttrMissing => ret false
  | AttrRaises msg => raise (Exception msg)
  | AttrValue _ => ret true
  end.

Definition getattr {S} (a : attribute) : M S value :=
  match a with
  | AttrMissing => raise (Exception "AttributeError")
  | AttrRaises msg => raise (Exception msg)
  | AttrValue v => ret v
  end.

(** [response[k] = v] *)
Definition setitem (k : string) (v : value) : M dict unit :=
  modify (λ response, <[k := v]> response).

(** [os.getenv(key)] *)
Definition getenv (environ : gmap string string) (key : string) : option string :=
  environ !! key.

(** ** Responses

    The framework turns what a handler returns or raises into a response:
    the route's success status with the returned value, the status and
    detail of an [HTTPException], status 500 for any other exception. *)

Inductive content : Type :=
  | JSONObject (d : dict)
  | JSONArray (l : list dict)
  | PlainText (s : string).

Record Response : Type := mkResponse {
  status : Z;
  body : content }.

Definition respond {A} (success : Z) (render : A → content) (o : outcome A)
    : Response :=
  match o with
  | Return a => mkResponse success (render a)
  | Raise (HTTPException c d) => mkResponse c (JSONObject {[ "detail" := VStr d ]})
  | Raise (Exception _) => mkResponse 500 (PlainText "Internal Server Error")
  end.

Definition route {S A} (success : Z) (render : A → content) (h : M S A)
    : S → S * Response :=
  λ s, let (s', o) := h s in (s', respond success render o).

(** ** The handlers of main.py *)

Section Service.

(** [repr_builtin]: the interpreter's [str()] on the values whose printed
    form is not spelled out here (floats, lists, datetimes). *)
Variable repr_builtin : value → string.

(** [sha256_hexdigest]: [hashlib.sha256(s.encode()).hexdigest()]. *)
Variable sha256_hexdigest : string → string.

(** [str(v)] *)
Definition py_str (v : value) : string :=
  match v with
  | VNone => "None"
  | VBool true => "True"
  | VBool false => "False"
  | VInt n => pretty n
  | VStr s => s
  | VObjectId o => ObjectId_str o
  | _ => repr_builtin v
  end.

Definition root : M Database dict :=
  ret {[ "service" := VStr "TETO Coffee Backend"; "status" := VStr "ok" ]}.

Definition initial_response : dict :=
  {[ "backend" := VStr "✅ Running";
     "database" := VStr "❌ Not Available";
     "database_url" := VNone;
     "database_name" := VNone;
     "connection_status" := VStr "Not Connected";
     "collections" := VList [] ]}.

Definition test_database_body (db : option handle) (environ : gmap string string)
    : M dict unit :=
  try_except
    (match db with
     | Some h =>
         setitem "database" (VStr "✅ Available") ;;;
         setitem "database_url"
           (VStr (if truthy_str (getenv environ "DATABASE_URL")
                  then "✅ Set" else "❌ Not Set")) ;;;
         has_name <- hasattr (handle_name h) ;;
         database_name <- (if has_name : bool then getattr (handle_name h)
                           else ret (VStr "✅ Connected")) ;;
         setitem "database_name" database_name ;;;
         setitem "connection_status" (VStr "Connected") ;;;
         try_except
           (collections <- lift (list_collection_names h) ;;
            setitem "collections" (VList (VStr <$> take 10 collections)) ;;;
            setitem "database" (VStr "✅ Connected & Working"))
           (λ e, setitem "database"
                   (VStr ("⚠️  Connected but Error: " ++ str_prefix 50 (exn_str e))))
     | None => setitem "database" (VStr "⚠️  Available but not initialized")
     end)
    (λ e, setitem "database" (VStr ("❌ Error: " ++ str_prefix 50 (exn_str e)))).

(** [test_database()]: build [response], run the probe on it, return it. *)
Definition test_database (db : option handle) (environ : gmap string string)
    : outcome dict :=
  match test_database_body db environ initial_response with
  | (response, Return _) => Return response
  | (_, Raise e) => Raise e
  end.

Definition to_object_id {S} (id_str : string) : M S objectid :=
  try_except (lift (ObjectId_of_str id_str))
    (λ _, raise (HTTPException 400 "Invalid ID format")).

(** [for i in items: i.pop("_id", None)] *)
Definition list_menu : M Database (list dict) :=
  items <- get_documents "menuitem" {[ "is_active" := VBool true ]} ;;
  ret ((λ i, delete "_id" i) <$> items).

Definition create_menu_item (item : MenuItem.t) : M Database dict :=
  new_id <- create_document "menuitem" item ;;
  ret {[ "id" := VStr new_id ]}.

Definition create_reservation (res : Reservation.t) : M Database dict :=
  new_id <- create_document "reservation" res ;;
  ret {[ "id" := VStr new_id; "status" := VStr "confirmed" ]}.

(** [d["id"] = str(d.pop("_id", ""))] *)
Definition rename_id (d : dict) : dict :=
  <["id" := VStr (py_str (dict_get d "_id" (VStr "")))]> (delete "_id" d).

Definition list_reservations (email : option string) : M Database (list dict) :=
  let filt : dict :=
    match email with
    | Some e => if bool_decide (e ≠ "") then {[ "email" := VStr e ]} else ∅
    | None => ∅
    end in
  docs <- get_documents "reservation" filt ;;
  ret (rename_id <$> docs).

Definition list_events : M Database (list dict) :=
  docs <- get_documents "event" ∅ ;;
  ret (rename_id <$> docs).

Definition create_event (event : Event.t) : M Database dict :=
  new_id <- create_document "event" event ;;
  ret {[ "id" := VStr new_id ]}.

Definition register_event (event_id : string) (reg : EventRegistration.t)
    : M Database dict :=
  oid <- to_object_id event_id ;;
  ev <- find_one "event" {[ "_id" := bson_objectid oid ]} ;;
  if negb (truthy ev) then raise (HTTPException 404 "Event not found") else
  let payload := model_dump reg in
  let payload := <["event_id" := VStr event_id]> payload in
  new_id <- insert_one "eventregistration" payload ;;
  ret {[ "id" := VStr (ObjectId_str new_id) ]}.

Definition list_posts : M Database (list dict) :=
  posts <- get_documents "blogpost" ∅ ;;
  ret (rename_id <$> posts).

(** [utcnow] is the reading of [datetime.utcnow()], taken when the payload
    has no [published_at]. *)
Definition create_post (utcnow : Z) (post : BlogPost.t) : M Database dict :=
  let post :=
    match BlogPost.published_at post with
    | None =>
        BlogPost.mk (BlogPost.title post) (BlogPost.content post)
          (BlogPost.image_url post) (BlogPost.author post) (BlogPost.tags post)
          (Some utcnow)
    | Some _ => post
    end in
  new_id <- create_document "blogpost" post ;;
  ret {[ "id" := VStr new_id ]}.

Definition list_gallery : M Database (list dict) :=
  imgs <- get_documents "galleryimage" ∅ ;;
  ret (rename_id <$> imgs).

Definition add_gallery_image (img : GalleryImage.t) : M Database dict :=
  new_id <- create_document "galleryimage" img ;;
  ret {[ "id" := VStr new_id ]}.

Definition subscribe (sub : NewsletterSubscriber.t) : M Database dict :=
  existing <- find_one "newslettersubscriber"
                {[ "email" := VStr (NewsletterSubscriber.email sub) ]} ;;
  if truthy existing then
    existing_id <- subscript existing "_id" ;;
    update_one "newslettersubscriber" {[ "_id" := existing_id ]}
      (model_dump sub) ;;;
    existing_id <- subscript existing "_id" ;;
    ret {[ "id" := VStr (py_str existing_id); "updated" := VBool true ]}
  else
    new_id <- create_document "newslettersubscriber" sub ;;
    ret {[ "id" := VStr new_id; "updated" := VBool false ]}.

Definition contact (msg : ContactMessage.t) : M Database dict :=
  new_id <- create_document "contactmessage" msg ;;
  ret {[ "id" := VStr new_id; "received" := VBool true ]}.

Definition hash_password (password : string) : string :=
  sha256_hexdigest password.

Definition register_user (name email password : string) : M Database dict :=
  found <- find_one "user" {[ "email" := VStr email ]} ;;
  if truthy found then raise (HTTPException 400 "Email already registered") else
  let user := User.mk name email (Some (hash_password password)) None true 0 in
  new_id <- insert_one "user" (model_dump user) ;;
  ret {[ "id" := VStr (ObjectId_str new_id) ]}.

Definition login_user (email password : string) : M Database dict :=
  found <- find_one "user" {[ "email" := VStr email ]} ;;
  match found with
  | Some u =>
      if negb (truthy found)
         || bool_decide (dict_get u "password_hash" VNone ≠ VStr (hash_password password))
      then raise (HTTPException 401 "Invalid credentials")
      else
        let token :=
          sha256_hexdigest (email ++ ":" ++ py_str (dict_get u "_id" VNone)) in
        ret {[ "token" := VStr token;
               "name" := dict_get u "name" VNone;
               "email" := VStr email;
               "loyalty_points" := dict_get u "loyalty_points" (VInt 0) ]}
  | None => raise (HTTPException 401 "Invalid credentials")
  end.

Definition track (utcnow : Z) (event_name : string) (path metadata : option string)
    : M Database dict :=
  let payload : dict :=
    {[ "event_name" := VStr event_name;
       "path" := optional VStr path;
       "metadata" := optional VStr metadata;
       "ts" := VDatetime utcnow ]} in
  insert_one "analytics_event" payload ;;;
  ret {[ "ok" := VBool true ]}.

End Service.

(** ** The response model of the menu route

    The route is declared with [response_model=List[MenuItem]]: what
    [list_menu] returns is validated item by item against the schema, and
    the validated items are what is sent; a list with an item that does not
    pass is not sent, the route fails. *)

Section ResponseModel.

(** [MenuItem_parse]: the validation library on a dict that has every
    required field: the record it builds, or nothing when a value does not
    fit its field. *)
Variable MenuItem_parse : dict → option MenuItem.t.

(** The fields of [MenuItem] declared without a default. *)
Definition MenuItem_required : list string := ["title"; "price"; "category"].

Definition MenuItem_validate (d : dict) : option MenuItem.t :=
  if bool_decide (Forall (λ k, is_Some (d !! k)) MenuItem_required)
  then MenuItem_parse d
  else None.

Definition response_model_menu (items : list dict) : M Database (list dict) :=
  match mapM MenuItem_validate items with
  | Some validated => ret (model_dump <$> validated)
  | None => raise (Exception "ResponseValidationError")
  end.

(** GET /api/menu *)
Definition get_menu : Database → Database * Response :=
  route 200 JSONArray (items <- list_menu ;; response_model_menu items).

End ResponseModel.

(** ** The process entry point *)

Fixpoint lstrip (s : string) : string :=
  match s with
  | String c s' => if is_space c then lstrip s' else s
  | EmptyString => EmptyString
  end.

Definition digit_value (c : ascii) : option Z :=
  let n := N_of_ascii c in
  if (48 <=? n)%N && (n <=? 57)%N then Some (Z.of_N n - 48)%Z else None.

(** A text of ASCII characters only. *)
Fixpoint is_ascii (s : string) : bool :=
  match s with
  | EmptyString => true
  | String c s' => (N_of_ascii c <? 128)%N && is_ascii s'
  end.

(** The digits at the start of a text, with single underscores allowed
    between them: their value, how many they are, and the rest of the
    text. *)
Fixpoint scan_digits (after_underscore : bool) (acc : Z) (count : N) (s : string)
    : option (Z * N * string) :=
  match s with
  | EmptyString => if after_underscore then None else Some (acc, count, s)
  | String c s' =>
      match digit_value c with
      | Some d => scan_digits false (10 * acc + d)%Z (count + 1)%N s'
      | None =>
          if bool_decide (c = "_"%char)
          then (if after_underscore then None else scan_digits true acc count s')
          else (if after_underscore then None else Some (acc, count, s))
      end
  end.

(** The interpreter's default limit on the digits of a decimal literal. *)
Definition max_str_digits : N := 4300.

Definition invalid_literal {A} : outcome A :=
  Raise (Exception "ValueError: invalid literal for int() with base 10").

Section Entry.

(** [int_non_ascii]: the interpreter's [int()] on a text that has a
    character outside ASCII (other scripts' digits and white space), which is
    not spelled out here. *)
Variable int_non_ascii : string → outcome Z.

(** [int(s)] on a text, base 10: white space, an optional sign, digits with
    single underscores between them, at most [max_str_digits] digits, white
    space. *)
Definition int_of_str (s : string) : outcome Z :=
  if is_ascii s then
    let s1 := lstrip s in
    let signed :=
      match s1 with
      | String "-" rest => (true, rest)
      | String "+" rest => (false, rest)
      | _ => (false, s1)
      end in
    match signed.2 with
    | String "_" _ => invalid_literal
    | number =>
        match scan_digits false 0 0 number with
        | None => invalid_literal
        | Some (n, count, rest) =>
            if (count =? 0)%N then invalid_literal
            else if (max_str_digits <? count)%N then
              Raise (Exception
                       "ValueError: Exceeds the limit (4300 digits) for integer string conversion")
            else if bool_decide (lstrip rest = "") then
              Return (if signed.1 : bool then - n else n)%Z
            else invalid_literal
        end
    end
  else int_non_ascii s.

(** [int(x)] where [x] is a string or already an integer. *)
Definition int (x : string + Z) : outcome Z :=
  match x with
  | inl s => int_of_str s
  | inr n => Return n
  end.

(** [os.getenv(key, default)] with an integer default. *)
Definition getenv_default (environ : gmap string string) (key : string) (dflt : Z)
    : string + Z :=
  match environ !! key with
  | Some s => inl s
  | None => inr dflt
  end.

(** The listener that [uvicorn.run] is asked for. *)
Record Listener : Type := mkListener {
  host : string;
  port : Z }.

(** [if __name__ == "__main__"] *)
Definition main (environ : gmap string string) : outcome Listener :=
  match int (getenv_default environ "PORT" 8000) with
  | Return port => Return (mkListener "0.0.0.0" port)
  | Raise e => Raise e
  end.

End Entry.

(** ** Vocabulary of the properties *)

(** [shown] is the first [n] characters of [text]: [text] starts with
    [shown], [shown] has [n] characters or, when [text] has fewer, all of
    them, and what is left out does not start in the middle of a
    character. *)
Definition first_characters (n : nat) (text shown : string) : Prop :=
  ∃ rest, text = shown ++ rest
          ∧ py_len shown = Nat.min n (py_len text)
          ∧ match rest with
            | String c _ => is_continuation c = false
            | EmptyString => True
            end.

(** At most one document of the collection per e-mail value. *)
Definition unique_email (c : collection) : Prop :=
  ∀ o1 o2 f1 f2 e,
    c !! o1 = Some f1 → c !! o2 = Some f2 →
    f1 !! "email" = Some e → f2 !! "email" = Some e → o1 = o2.

(** The database after a sequence of calls of [subscribe], in order. *)
Definition subscribe_all (repr_builtin : value → string)
    (subs : list NewsletterSubscriber.t) (db : Database) : Database :=
  foldl (λ db sub, (subscribe repr_builtin sub db).1) db subs.

(** The last call of the sequence made with the given e-mail. *)
Definition latest_call (email : string) (subs : list NewsletterSubscriber.t)
    : option NewsletterSubscriber.t :=
  last (filter (λ sub, NewsletterSubscriber.email sub = email) subs).

(** A listed document [r] shows the record created under [new_id]: the
    identifier is the string field ["id"], the raw ["_id"] is gone, and
    every submitted field is there with its value. *)
Definition listed_as (new_id : string) (submitted r : dict) : Prop :=
  r !! "id" = Some (VStr new_id)
  ∧ r !! "_id" = None
  ∧ ∀ k v, submitted !! k = Some v → r !! k = Some v.

(** ** Sample data

    A small database and some requests, on which the properties are
    exercised. *)

Definition sample_menu : collection :=
  {[ 1%N := {[ "title" := VStr "Flat white"; "category" := VStr "coffee";
               "is_active" := VBool true ]};
     2%N := {[ "title" := VStr "Pumpkin latte"; "category" := VStr "seasonal";
               "is_active" := VBool false ]} ]}.

Definition sample_events : collection :=
  {[ 5%N := {[ "title" := VStr "Cupping night"; "date" := VStr "2025-03-01";
               "time" := VStr "19:00" ]} ]}.

Definition sample_subscribers : collection :=
  {[ 7%N := {[ "email" := VStr "ana@example.com"; "name" := VNone;
               "source" := VStr "website" ]} ]}.

(** A stand-in for the digest, enough to tell two passwords apart. *)
Definition sample_digest (s : string) : string := "digest(" ++ s ++ ")".

Definition sample_users : collection :=
  {[ 9%N := {[ "name" := VStr "Ana"; "email" := VStr "ana@example.com";
               "password_hash" := VStr (sample_digest "s3cret");
               "is_member" := VBool true ]} ]}.

Definition sample_db : Database :=
  {[ "menuitem" := sample_menu;
     "event" := sample_events;
     "newslettersubscriber" := sample_subscribers;
     "user" := sample_users ]}.

Definition sample_registration : EventRegistration.t :=
  EventRegistration.mk "from-the-body" "Ana" "ana@example.com" None "guest".

Definition sample_post : BlogPost.t :=
  BlogPost.mk "Opening hours" "We open at eight." None (Some "TETO Team") [] None.

Definition sample_reservation : Reservation.t :=
  Reservation.mk "Ana" "ana@example.com" "2025-03-01" "19:00" 2 None None "confirmed".

Definition sample_repr (v : value) : string := "".

(** A stand-in for the validation of a menu item: texts for the title and
    the category, a float for the price. *)
Definition sample_MenuItem_parse (d : dict) : option MenuItem.t :=
  match d !! "title", d !! "price", d !! "category" with
  | Some (VStr title), Some (VFloat price), Some (VStr category) =>
      Some (MenuItem.mk title
              (match d !! "description" with Some (VStr t) => Some t | _ => None end)
              price category
              (match d !! "image_url" with Some (VStr u) => Some u | _ => None end)
              (match d !! "is_active" with Some (VBool b) => b | _ => true end))
  | _, _, _ => None
  end.

(** A menu whose documents all have the required fields. *)
Definition sample_priced_items : collection :=
  {[ 1%N := {[ "title" := VStr "Flat white"; "price" := VFloat (S754_zero false);
               "category" := VStr "coffee"; "is_active" := VBool true ]};
     2%N := {[ "title" := VStr "Pumpkin latte"; "price" := VFloat (S754_zero false);
               "category" := VStr "seasonal"; "is_active" := VBool false ]} ]}.

Definition sample_priced_menu : Database := {[ "menuitem" := sample_priced_items ]}.

(** A stand-in for [int()] on texts outside ASCII. *)
Definition sample_int_non_ascii (s : string) : outcome Z :=
  Raise (Exception "ValueError: invalid literal for int() with base 10").

(** ** Sequences of calls *)

(** Handlers run one after the other on the same database, with the
    outcome of each. *)
Fixpoint run_all {A} (calls : list (M Database A)) (db : Database)
    : Database * list (outcome A) :=
  match calls with
  | [] => (db, [])
  | call :: rest =>
      let (db', o) := call db in
      let (db'', os) := run_all rest db' in
      (db'', o :: os)
  end.

(** An outcome that is a returned value. *)
Definition returned {A} (o : outcome A) : Prop :=
  match o with
  | Return _ => True
  | Raise _ => False
  end.

(** The largest number an [ObjectId] of 12 bytes can hold, plus one. *)
Definition ObjectId_bound : N := (2 ^ 96)%N.


(** [db'] is [db] with one more document in the collection [name]: every
    document of [db] is in [db'] as it was, and the other collections are
    the same. *)
Definition adds_one_to (name : string) (db db' : Database) : Prop :=
  size (getcollection db' name) = S (size (getcollection db name))
  ∧ (∀ name' o f, getcollection db name' !! o = Some f →
                  getcollection db' name' !! o = Some f)
  ∧ (∀ name', name' ≠ name → getcollection db' name' = getcollection db name').

(** * Properties *)

(** ** The definitions on small inputs *)

Example ObjectId_of_str_hex :
  ObjectId_of_str "0123456789abcdef01234567"
  = Return (ObjectId12 0x0123456789abcdef01234567%N).
Proof. reflexivity. Qed.

Example ObjectId_of_str_upper_case :
  ObjectId_of_str "0123456789ABCDEF01234567"
  = Return (ObjectId12 0x0123456789abcdef01234567%N).
Proof. reflexivity. Qed.

Example ObjectId_of_str_too_short :
  ObjectId_of_str "0123456789abcdef" = Raise (Exception "0123456789abcdef is not a valid ObjectId").
Proof. reflexivity. Qed.

Example ObjectId_of_str_not_hex :
  ObjectId_of_str "0123456789abcdef0123456z"
  = Raise (Exception "0123456789abcdef0123456z is not a valid ObjectId").
Proof. reflexivity. Qed.

(** White space between the bytes is skipped: 24 characters, 8 bytes. *)
Example ObjectId_of_str_spaced :
  ObjectId_of_str "00 00 00 00 00 00 00 00 "
  = Return (ObjectIdShort [0; 0; 0; 0; 0; 0; 0; 0]%N).
Proof. reflexivity. Qed.

(** White space inside a byte is not. *)
Example ObjectId_of_str_split_byte :
  ObjectId_of_str "0 000000000000000000 000"
  = Raise (Exception "0 000000000000000000 000 is not a valid ObjectId").
Proof. reflexivity. Qed.

Example ObjectId_str_hex :
  ObjectId_str 0x0123456789abcdef01234567%N = "0123456789abcdef01234567".
Proof. reflexivity. Qed.

Example str_prefix_ascii : str_prefix 3 "timed out" = "tim".
Proof. reflexivity. Qed.

(** Two characters of a text in which each character takes three bytes. *)
Example str_prefix_characters : str_prefix 2 "✅✅✅" = "✅✅".
Proof. reflexivity. Qed.

Example py_len_characters : py_len "✅ Set" = 5%nat.
Proof. reflexivity. Qed.

Example int_of_str_spaces_and_underscore :
  int_of_str sample_int_non_ascii " 80_80 " = Return 8080%Z.
Proof. reflexivity. Qed.

Example int_of_str_negative : int_of_str sample_int_non_ascii "-1" = Return (-1)%Z.
Proof. reflexivity. Qed.

Example int_of_str_empty : int_of_str sample_int_non_ascii "" = invalid_literal.
Proof. reflexivity. Qed.

Example int_of_str_double_underscore :
  int_of_str sample_int_non_ascii "8__0" = invalid_literal.
Proof. reflexivity. Qed.

Example int_of_str_leading_underscore :
  int_of_str sample_int_non_ascii "_80" = invalid_literal.
Proof. reflexivity. Qed.

(** The unit separator, character 31, is not white space for [int()]. *)
Example int_of_str_unit_separator :
  int_of_str sample_int_non_ascii (String (ascii_of_N 31) "8080") = invalid_literal.
Proof. reflexivity. Qed.

Example int_of_str_inner_space : int_of_str sample_int_non_ascii "80 80" = invalid_literal.
Proof. reflexivity. Qed.

Example test_database_no_handle :
  test_database None ∅
  = Return (<["database" := VStr "⚠️  Available but not initialized"]> initial_response).
Proof. reflexivity. Qed.

Example test_database_listing_fails :
  test_database
    (Some (mkHandle (AttrValue (VStr "teto")) (Raise (Exception "timed out"))))
    {[ "DATABASE_URL" := "mongodb://localhost" ]}
  = Return (<["database" := VStr "⚠️  Connected but Error: timed out"]>
              (<["connection_status" := VStr "Connected"]>
                 (<["database_name" := VStr "teto"]>
                    (<["database_url" := VStr "✅ Set"]> initial_response)))).
Proof. reflexivity. Qed.

Example list_menu_sample :
  list_menu sample_db
  = (sample_db,
     Return [ {[ "title" := VStr "Flat white"; "category" := VStr "coffee";
                 "is_active" := VBool true ]} ]).
Proof. reflexivity. Qed.

(** ** The store *)

Lemma select_elem_of (c : collection) (filt : dict) (p : ObjectId * dict) :
  p ∈ select c filt ↔ c !! p.1 = Some p.2 ∧ matches filt (with_id p).
Proof.
  unfold select. rewrite list_elem_of_filter. destruct p as [o f].
  rewrite elem_of_map_to_list. simpl. tauto.
Qed.

Lemma NoDup_select (c : collection) (filt : dict) : NoDup (select c filt).
Proof. apply NoDup_filter, NoDup_map_to_list. Qed.

Lemma with_id_lookup_id (p : ObjectId * dict) :
  with_id p !! "_id" = Some (VObjectId p.1).
Proof. apply lookup_insert_eq. Qed.

Lemma with_id_lookup_ne (p : ObjectId * dict) (k : string) :
  k ≠ "_id" → with_id p !! k = p.2 !! k.
Proof. intros Hk. unfold with_id. by rewrite lookup_insert_ne. Qed.

Lemma with_id_nonempty (p : ObjectId * dict) : with_id p ≠ ∅.
Proof. apply insert_non_empty. Qed.

Lemma matches_singleton (k : string) (v : value) (d : dict) :
  matches {[ k := v ]} d ↔ d !! k = Some v.
Proof. unfold matches. by rewrite map_Forall_singleton. Qed.

Lemma matches_empty (d : dict) : matches ∅ d.
Proof. apply map_Forall_empty. Qed.

(** Membership in the result of [find], in terms of the stored documents. *)
Lemma find_elem_of (c : collection) (filt d : dict) :
  d ∈ find c filt
  ↔ ∃ o f, c !! o = Some f ∧ d = with_id (o, f) ∧ matches filt d.
Proof.
  unfold find. rewrite list_elem_of_fmap. split.
  - intros [[o f] [-> [Hc Hm]%select_elem_of]]. by exists o, f.
  - intros (o & f & Hc & -> & Hm). exists (o, f). split; [done|].
    by apply select_elem_of.
Qed.

Lemma with_id_inj_fst (p q : ObjectId * dict) : with_id p = with_id q → p.1 = q.1.
Proof.
  intros Heq. pose proof (with_id_lookup_id p) as Hp.
  rewrite Heq, with_id_lookup_id in Hp. congruence.
Qed.

(** No document is returned twice. *)
Lemma NoDup_find (c : collection) (filt : dict) : NoDup (find c filt).
Proof.
  unfold find. apply NoDup_fmap_2_strong; [|apply NoDup_select].
  intros [o f] [o' f'] [Hc _]%select_elem_of [Hc' _]%select_elem_of Heq.
  apply with_id_inj_fst in Heq. simpl in *. subst o'. congruence.
Qed.

Lemma NoDup_singleton_all {A} (l : list A) (x : A) :
  NoDup l → x ∈ l → (∀ y, y ∈ l → y = x) → l = [x].
Proof.
  intros Hnd Hx Hall. destruct l as [|a [|b l]].
  - by apply elem_of_nil in Hx.
  - f_equal. apply Hall. left.
  - exfalso. assert (a = x) as -> by (apply Hall; left).
    assert (b = x) as -> by (apply Hall; right; left).
    apply NoDup_cons in Hnd as [Hnot _]. apply Hnot. left.
Qed.

(** A lookup by identifier finds the document stored under it, and only
    that one. *)
Lemma select_by_id (c : collection) (o : ObjectId) :
  select c {[ "_id" := VObjectId o ]}
  = match c !! o with Some f => [(o, f)] | None => [] end.
Proof.
  assert (∀ p, p ∈ select c {[ "_id" := VObjectId o ]} → p.1 = o ∧ c !! o = Some p.2)
    as Hsel.
  { intros [o' f'] [Hin Hm]%select_elem_of. simpl in *.
    apply matches_singleton in Hm. rewrite with_id_lookup_id in Hm.
    simpl in Hm. assert (o' = o) as -> by congruence. done. }
  destruct (c !! o) as [f|] eqn:Hc.
  - apply NoDup_singleton_all; [apply NoDup_select| |].
    + apply select_elem_of. split; [done|].
      apply matches_singleton, with_id_lookup_id.
    + intros [o' f'] [Ho Hf]%Hsel. simpl in *. congruence.
  - apply elem_of_nil_inv. intros p [_ Hp]%Hsel. congruence.
Qed.

Lemma find_by_id (c : collection) (o : ObjectId) :
  find c {[ "_id" := VObjectId o ]}
  = match c !! o with Some f => [with_id (o, f)] | None => [] end.
Proof. unfold find. rewrite select_by_id. by destruct (c !! o). Qed.

Lemma getcollection_insert_eq (db : Database) (name : string) (c : collection) :
  getcollection (<[name := c]> db) name = c.
Proof. unfold getcollection. by rewrite lookup_insert_eq. Qed.

Lemma getcollection_insert_ne (db : Database) (name name' : string) (c : collection) :
  name ≠ name' → getcollection (<[name := c]> db) name' = getcollection db name'.
Proof. intros. unfold getcollection. by rewrite lookup_insert_ne. Qed.

(** A generated identifier is not in use. *)
Lemma ObjectId_new_fresh (c : collection) : c !! ObjectId_new c = None.
Proof. apply not_elem_of_dom. unfold ObjectId_new. apply is_fresh. Qed.

(** Inserting a document that brings no identifier of its own. *)
Lemma insert_one_fresh (db : Database) (name : string) (doc : dict) :
  doc !! "_id" = None →
  insert_one name doc db
  = (<[name := <[ObjectId_new (getcollection db name) := doc]> (getcollection db name)]> db,
     Return (ObjectId_new (getcollection db name))).
Proof. intros Hdoc. unfold insert_one, bind, get, modify, ret. by rewrite Hdoc. Qed.

(** ** Registration for an event *)

(** An object that is not a 12-byte identifier is no stored document's
    identifier. *)
Lemma find_by_short_id (c : collection) (binary : list N) :
  find c {[ "_id" := VObjectIdShort binary ]} = [].
Proof.
  apply elem_of_nil_inv. intros d (o & f & _ & -> & Hm)%find_elem_of.
  apply matches_singleton in Hm. rewrite with_id_lookup_id in Hm. done.
Qed.

(** What [register_event] computes, by the cases of its two checks. *)
Lemma register_event_unfold (db : Database) (event_id : string)
    (reg : EventRegistration.t) :
  register_event event_id reg db
  = match ObjectId_of_str event_id with
    | Raise _ => (db, Raise (HTTPException 400 "Invalid ID format"))
    | Return (ObjectIdShort _) => (db, Raise (HTTPException 404 "Event not found"))
    | Return (ObjectId12 oid) =>
        match getcollection db "event" !! oid with
        | None => (db, Raise (HTTPException 404 "Event not found"))
        | Some _ =>
            let regs := getcollection db "eventregistration" in
            let new_id := ObjectId_new regs in
            (<["eventregistration" :=
                 <[new_id := <["event_id" := VStr event_id]> (model_dump reg)]> regs]> db,
             Return {[ "id" := VStr (ObjectId_str new_id) ]})
        end
    end.
Proof.
  unfold register_event, to_object_id, find_one.
  unfold bind, try_except, lift, get, ret, raise.
  destruct (ObjectId_of_str event_id) as [[oid|binary]|e]; [| |done].
  - simpl. rewrite find_by_id.
    destruct (getcollection db "event" !! oid) as [ev|]; [|done].
    simpl. rewrite bool_decide_eq_true_2 by apply with_id_nonempty. simpl.
    rewrite insert_one_fresh by reflexivity. reflexivity.
  - simpl. by rewrite find_by_short_id.
Qed.


(** C10. The registration that is stored carries the [event_id] of the
    path: the [event_id] of the request body is overwritten before the
    insert, so two requests that differ only in the body's [event_id] leave
    the same database and get the same answer, and the stored document's
    ["event_id"] is the path's string. *)
Theorem register_event_event_id_from_path (db : Database) (event_id : string) :
  (∀ body_id body_id' name email member_email tier,
     register_event event_id
       (EventRegistration.mk body_id name email member_email tier) db
     = register_event event_id
         (EventRegistration.mk body_id' name email member_email tier) db)
  ∧ (∀ reg db' r,
       register_event event_id reg db = (db', Return r) →
       ∃ new_id doc,
         getcollection db "eventregistration" !! new_id = None
         ∧ getcollection db' "eventregistration"
           = <[new_id := doc]> (getcollection db "eventregistration")
         ∧ doc !! "event_id" = Some (VStr event_id)
         ∧ r = {[ "id" := VStr (ObjectId_str new_id) ]}).
Proof.
  split.
  - intros. rewrite !register_event_unfold. reflexivity.
  - intros reg db' r. rewrite register_event_unfold.
    destruct (ObjectId_of_str event_id) as [[oid|binary]|e];
      [|by intros [= ]|by intros [= ]].
    destruct (getcollection db "event" !! oid) as [ev|]; [|by intros [= ]].
    simpl. intros [= <- <-].
    eexists _, _. split; [apply ObjectId_new_fresh|].
    split; [by rewrite getcollection_insert_eq|].
    split; [apply lookup_insert_eq|done].
Qed.

(** ** Analytics *)


(** ** The access layer *)

Lemma create_document_fresh `{BaseModel A} (db : Database) (name : string) (data : A) :
  model_dump data !! "_id" = None →
  create_document name data db
  = (<[name := <[ObjectId_new (getcollection db name) := model_dump data]>
                 (getcollection db name)]> db,
     Return (ObjectId_str (ObjectId_new (getcollection db name)))).
Proof.
  intros Hid. unfold create_document, bind, ret.
  by rewrite insert_one_fresh.
Qed.

Lemma get_documents_unfold (db : Database) (name : string) (filt : dict) :
  get_documents name filt db = (db, Return (find (getcollection db name) filt)).
Proof. reflexivity. Qed.

Lemma NoDup_fst_filter {A B} (P : A * B → Prop) `{!∀ x, Decision (P x)}
    (l : list (A * B)) :
  NoDup l.*1 → NoDup (filter P l).*1.
Proof.
  induction l as [|x l IH]; [done|]. rewrite fmap_cons, NoDup_cons.
  intros [Hx Hl]. rewrite filter_cons. destruct (decide (P x)); [|by apply IH].
  rewrite fmap_cons, NoDup_cons. split; [|by apply IH].
  intros [y [Hy [_ Hin]%list_elem_of_filter]]%list_elem_of_fmap.
  apply Hx, list_elem_of_fmap. by exists y.
Qed.

(** The number of documents selected is the number of stored documents that
    satisfy the filter. *)
Lemma length_select (c : collection) (filt : dict) :
  length (select c filt) = size (filter (λ p, matches filt (with_id p)) c).
Proof.
  unfold select. rewrite map_filter_alt, map_size_list_to_map; [done|].
  apply NoDup_fst_filter, NoDup_fst_map_to_list.
Qed.

(** ** Blog posts *)

(** C6. POST /api/blog: the document stored for a post without
    [published_at] has the clock reading taken by the handler as its
    ["published_at"]; the document stored for a post with a [published_at]
    has that value. *)
Theorem create_post_published_at (db : Database) (utcnow : Z) (post : BlogPost.t) :
  let posts := getcollection db "blogpost" in
  let new_id := ObjectId_new posts in
  ∃ doc : dict,
    posts !! new_id = None
    ∧ route 201 JSONObject (create_post utcnow post) db
      = (<["blogpost" := <[new_id := doc]> posts]> db,
         mkResponse 201 (JSONObject {[ "id" := VStr (ObjectId_str new_id) ]}))
    ∧ (BlogPost.published_at post = None →
         doc !! "published_at" = Some (VDatetime utcnow))
    ∧ (∀ t, BlogPost.published_at post = Some t →
         doc !! "published_at" = Some (VDatetime t)).
Proof.
  intros posts new_id. unfold route, create_post, bind, ret.
  destruct post as [title content image_url author tags [t|]]; simpl.
  - rewrite create_document_fresh by reflexivity.
    eexists. split; [apply ObjectId_new_fresh|]. split; [reflexivity|].
    split; [done|]. by intros t' [= <-].
  - rewrite create_document_fresh by reflexivity.
    eexists. split; [apply ObjectId_new_fresh|]. split; [reflexivity|].
    split; [done|]. by intros t' [= ].
Qed.

(** ** The menu *)

(** The handler on its own, before the response model: it returns, without
    their identifier, the documents of the menu collection whose
    ["is_active"] is [True], each once; every returned item has
    ["is_active"] equal to [True] and none has an ["_id"] field; the
    database is not changed. *)
Lemma list_menu_handler (db : Database) :
  let menu := getcollection db "menuitem" in
  ∃ items,
    list_menu db = (db, Return items)
    ∧ (∀ r, r ∈ items
         ↔ ∃ o f, menu !! o = Some f
                  ∧ f !! "is_active" = Some (VBool true)
                  ∧ r = delete "_id" f)
    ∧ (∀ r, r ∈ items → r !! "is_active" = Some (VBool true))
    ∧ (∀ r, r ∈ items → r !! "_id" = None)
    ∧ length items
      = size (filter (λ p : ObjectId * dict, p.2 !! "is_active" = Some (VBool true)) menu).
Proof.
  intros menu. unfold list_menu, bind, ret. rewrite get_documents_unfold.
  fold menu. eexists. split; [reflexivity|].
  assert (∀ r, r ∈ (λ i : dict, delete "_id" i) <$> find menu {[ "is_active" := VBool true ]}
            ↔ ∃ o f, menu !! o = Some f ∧ f !! "is_active" = Some (VBool true)
                     ∧ r = delete "_id" f) as Hmem.
  { intros r. rewrite list_elem_of_fmap. split.
    - intros (d & -> & (o & f & Hf & -> & Hm)%find_elem_of).
      apply matches_singleton in Hm. rewrite with_id_lookup_ne in Hm by done.
      exists o, f. split; [done|]. split; [done|].
      unfold with_id. simpl. by rewrite delete_insert_eq.
    - intros (o & f & Hf & Hact & ->). exists (with_id (o, f)). split.
      + unfold with_id. simpl. by rewrite delete_insert_eq.
      + apply find_elem_of. exists o, f. split; [done|]. split; [done|].
        apply matches_singleton. by rewrite with_id_lookup_ne. }
  split; [exact Hmem|]. split; [|split].
  - intros r (o & f & _ & Hact & ->)%Hmem. by rewrite lookup_delete_ne.
  - intros r (o & f & _ & _ & ->)%Hmem. apply lookup_delete_eq.
  - unfold find. rewrite !length_fmap, length_select. f_equal.
    apply map_filter_ext. intros o f _. rewrite matches_singleton.
    by rewrite with_id_lookup_ne.
Qed.

Lemma mapM_Some_elem_of {A B} (f : A → option B) (l : list A) (k : list B) :
  mapM f l = Some k → ∀ y, y ∈ k ↔ ∃ x, x ∈ l ∧ f x = Some y.
Proof.
  intros Hall%mapM_Some. induction Hall as [|x y l k Hxy Hall IH]; intros y'.
  - split; [by intros ?%elem_of_nil|]. by intros (x & ?%elem_of_nil & _).
  - rewrite elem_of_cons, IH. split.
    + intros [->|(x' & Hx' & Hf)].
      * exists x. split; [apply elem_of_cons; by left|done].
      * exists x'. split; [apply elem_of_cons; by right|done].
    + intros (x' & [->|Hx']%elem_of_cons & Hf).
      * left. congruence.
      * right. by exists x'.
Qed.

Lemma MenuItem_dump_no_identifier (m : MenuItem.t) :
  model_dump m !! "_id" = None ∧ model_dump m !! "id" = None.
Proof. by destruct m. Qed.

Lemma MenuItem_dump_is_active (m : MenuItem.t) :
  model_dump m !! "is_active" = Some (VBool (MenuItem.is_active m)).
Proof. by destruct m. Qed.

Lemma MenuItem_validate_parse (MenuItem_parse : dict → option MenuItem.t)
    (d : dict) (m : MenuItem.t) :
  MenuItem_validate MenuItem_parse d = Some m → MenuItem_parse d = Some m.
Proof. unfold MenuItem_validate. by destruct (bool_decide _). Qed.

(** C3. GET /api/menu, the route with its response model.  When every
    stored document whose ["is_active"] is [True] passes the [MenuItem]
    model, the route answers 200 with the validated form of exactly those
    documents, each once: no document stored with another ["is_active"] is
    among them, no element has an ["_id"] or an ["id"] field, and (the model
    reading a stored boolean as it is) every element has ["is_active"] equal
    to [True]; the database is not changed.  When one of them does not pass,
    the route answers 500 and returns no list. *)
Theorem get_menu_active_only (MenuItem_parse : dict → option MenuItem.t)
    (db : Database) :
  let menu := getcollection db "menuitem" in
  let validate := MenuItem_validate MenuItem_parse in
  ((∀ o f, menu !! o = Some f → f !! "is_active" = Some (VBool true) →
           is_Some (validate (delete "_id" f))) →
   ∃ items,
     get_menu MenuItem_parse db = (db, mkResponse 200 (JSONArray items))
     ∧ (∀ r, r ∈ items
          ↔ ∃ o f m, menu !! o = Some f
                     ∧ f !! "is_active" = Some (VBool true)
                     ∧ validate (delete "_id" f) = Some m
                     ∧ r = model_dump m)
     ∧ (∀ r, r ∈ items → r !! "_id" = None ∧ r !! "id" = None)
     ∧ length items
       = size (filter (λ p : ObjectId * dict, p.2 !! "is_active" = Some (VBool true))
                 menu)
     ∧ ((∀ d b m, d !! "is_active" = Some (VBool b) → MenuItem_parse d = Some m →
                  MenuItem.is_active m = b) →
        ∀ r, r ∈ items → r !! "is_active" = Some (VBool true)))
  ∧ (∀ o f, menu !! o = Some f → f !! "is_active" = Some (VBool true) →
            validate (delete "_id" f) = None →
            get_menu MenuItem_parse db
            = (db, mkResponse 500 (PlainText "Internal Server Error"))).
Proof.
  intros menu validate.
  destruct (list_menu_handler db) as (docs & Hrun & Hmem & _ & _ & Hlen).
  fold menu in Hmem, Hlen.
  unfold get_menu, route, bind. rewrite Hrun. unfold response_model_menu.
  fold validate. split.
  - intros Hall.
    assert (is_Some (mapM validate docs)) as [validated Hvalidated].
    { apply mapM_is_Some, Forall_forall. intros d (o & f & Hf & Hact & ->)%Hmem.
      by apply Hall with o. }
    rewrite Hvalidated. unfold ret. cbn [respond].
    exists (model_dump <$> validated). split; [done|].
    pose proof (mapM_Some_elem_of _ _ _ Hvalidated) as Hin.
    assert (∀ r, r ∈ model_dump <$> validated
              ↔ ∃ o f m, menu !! o = Some f
                         ∧ f !! "is_active" = Some (VBool true)
                         ∧ validate (delete "_id" f) = Some m
                         ∧ r = model_dump m) as Hitems.
    { intros r. rewrite list_elem_of_fmap. split.
      - intros (m & -> & (d & (o & f & Hf & Hact & ->)%Hmem & Hm)%Hin).
        by exists o, f, m.
      - intros (o & f & m & Hf & Hact & Hm & ->). exists m. split; [done|].
        apply Hin. exists (delete "_id" f). split; [|done].
        apply Hmem. by exists o, f. }
    split; [exact Hitems|]. split; [|split].
    + intros r (o & f & m & _ & _ & _ & ->)%Hitems.
      apply MenuItem_dump_no_identifier.
    + rewrite length_fmap, <- Hlen. symmetry.
      by apply Forall2_length with (P := λ x y, validate x = Some y), mapM_Some.
    + intros Hbool r (o & f & m & _ & Hact & Hm%MenuItem_validate_parse & ->)%Hitems.
      rewrite MenuItem_dump_is_active. do 2 f_equal.
      apply Hbool with (delete "_id" f); [|done]. by rewrite lookup_delete_ne.
  - intros o f Hf Hact Hnone.
    assert (mapM validate docs = None) as ->; [|done].
    apply mapM_None, Exists_exists. exists (delete "_id" f). split; [|done].
    apply Hmem. by exists o, f.
Qed.

(** ** Create, then list *)

Section Listing.

Context (repr_builtin : value → string).

Lemma rename_id_with_id (o : ObjectId) (f : dict) :
  f !! "id" = None → f !! "_id" = None →
  listed_as (ObjectId_str o) f (rename_id repr_builtin (with_id (o, f))).
Proof.
  intros Hid Hraw. unfold rename_id, dict_get. rewrite with_id_lookup_id. simpl.
  split; [apply lookup_insert_eq|]. split.
  - rewrite lookup_insert_ne by done. apply lookup_delete_eq.
  - intros k v Hk.
    assert (k ≠ "id") by congruence. assert (k ≠ "_id") by congruence.
    rewrite lookup_insert_ne by done. rewrite lookup_delete_ne by done.
    by rewrite with_id_lookup_ne.
Qed.

(** A record stored by [create_document] is among the documents that
    [get_documents] returns for any filter it satisfies. *)
Lemma created_is_listed `{BaseModel A} (db : Database) (name : string) (data : A)
    (filt : dict) :
  model_dump data !! "_id" = None →
  model_dump data !! "id" = None →
  (∀ o, matches filt (with_id (o, model_dump data))) →
  ∃ db' new_id docs r,
    create_document name data db = (db', Return new_id)
    ∧ get_documents name filt db' = (db', Return docs)
    ∧ r ∈ rename_id repr_builtin <$> docs
    ∧ listed_as new_id (model_dump data) r.
Proof.
  intros Hraw Hid Hm. rewrite create_document_fresh by done.
  set (o := ObjectId_new (getcollection db name)).
  eexists _, _, _, (rename_id repr_builtin (with_id (o, model_dump data))).
  split; [reflexivity|]. rewrite get_documents_unfold. split; [reflexivity|].
  split; [|by apply rename_id_with_id].
  apply list_elem_of_fmap_2, find_elem_of. exists o, (model_dump data).
  rewrite getcollection_insert_eq, lookup_insert_eq. auto.
Qed.

(** C7. For events, blog posts, gallery images and reservations: after the
    POST handler has stored a validated record and answered with the new
    identifier, the GET handler returns a list that contains a document
    with that identifier as the string field ["id"], without the raw
    ["_id"], and with every field of the record (for a blog post, with
    [published_at] as stored).  Reservations are listed with no e-mail
    filter or with the e-mail of the reservation. *)
Theorem create_then_list_roundtrip (db : Database) :
  (∀ event, ∃ db' new_id docs r,
     create_event event db = (db', Return {[ "id" := VStr new_id ]})
     ∧ list_events repr_builtin db' = (db', Return docs)
     ∧ r ∈ docs ∧ listed_as new_id (model_dump event) r)
  ∧ (∀ utcnow post, ∃ db' new_id docs r,
       create_post utcnow post db = (db', Return {[ "id" := VStr new_id ]})
       ∧ list_posts repr_builtin db' = (db', Return docs)
       ∧ r ∈ docs
       ∧ listed_as new_id
           (<["published_at" := VDatetime (default utcnow (BlogPost.published_at post))]>
              (model_dump post)) r)
  ∧ (∀ img, ∃ db' new_id docs r,
       add_gallery_image img db = (db', Return {[ "id" := VStr new_id ]})
       ∧ list_gallery repr_builtin db' = (db', Return docs)
       ∧ r ∈ docs ∧ listed_as new_id (model_dump img) r)
  ∧ (∀ res email, email = None ∨ email = Some (Reservation.email res) →
       ∃ db' new_id docs r,
         create_reservation res db
         = (db', Return {[ "id" := VStr new_id; "status" := VStr "confirmed" ]})
         ∧ list_reservations repr_builtin email db' = (db', Return docs)
         ∧ r ∈ docs ∧ listed_as new_id (model_dump res) r).
Proof.
  repeat split.
  - intros event.
    destruct (created_is_listed db "event" event ∅) as (db' & new_id & docs & r & Hc & Hg & Hr & Hl);
      [reflexivity|reflexivity|intros; apply matches_empty|].
    exists db', new_id, (rename_id repr_builtin <$> docs), r.
    unfold create_event, list_events, bind, ret. by rewrite Hc, Hg.
  - intros utcnow [title content image_url author tags published_at].
    set (post' := BlogPost.mk title content image_url author tags
                    (Some (default utcnow published_at))).
    destruct (created_is_listed db "blogpost" post' ∅) as (db' & new_id & docs & r & Hc & Hg & Hr & Hl);
      [reflexivity|reflexivity|intros; apply matches_empty|].
    exists db', new_id, (rename_id repr_builtin <$> docs), r.
    unfold create_post, list_posts, bind, ret. rewrite Hg.
    subst post'. destruct published_at as [t|]; simpl in *; by rewrite Hc.
  - intros img.
    destruct (created_is_listed db "galleryimage" img ∅) as (db' & new_id & docs & r & Hc & Hg & Hr & Hl);
      [reflexivity|reflexivity|intros; apply matches_empty|].
    exists db', new_id, (rename_id repr_builtin <$> docs), r.
    unfold add_gallery_image, list_gallery, bind, ret. by rewrite Hc, Hg.
  - intros res email Hemail.
    set (filt := match email with
                 | Some e => if bool_decide (e ≠ "") then {[ "email" := VStr e ]} else ∅
                 | None => ∅
                 end : dict).
    destruct (created_is_listed db "reservation" res filt) as (db' & new_id & docs & r & Hc & Hg & Hr & Hl);
      [reflexivity|reflexivity| |].
    { intros o. subst filt. destruct Hemail as [->| ->]; [apply matches_empty|].
      case_bool_decide; [|apply matches_empty].
      apply matches_singleton. by rewrite with_id_lookup_ne. }
    exists db', new_id, (rename_id repr_builtin <$> docs), r.
    unfold create_reservation, list_reservations, bind, ret. fold filt.
    by rewrite Hc, Hg.
Qed.

End Listing.

(** ** Newsletter *)

Section Newsletter.

Context (repr_builtin : value → string).

Local Abbreviation subscribers db := (getcollection db "newslettersubscriber").
Local Abbreviation by_email e := ({[ "email" := VStr e ]} : dict).

Lemma matches_email (e : string) (p : ObjectId * dict) :
  matches (by_email e) (with_id p) ↔ p.2 !! "email" = Some (VStr e).
Proof. rewrite matches_singleton. by rewrite with_id_lookup_ne. Qed.

Lemma head_select_Some (c : collection) (filt : dict) (p : ObjectId * dict) :
  head (select c filt) = Some p → c !! p.1 = Some p.2 ∧ matches filt (with_id p).
Proof. intros Hhd%head_Some_elem_of. by apply select_elem_of. Qed.

Lemma head_select_None (c : collection) (filt : dict) :
  head (select c filt) = None →
  ∀ o f, c !! o = Some f → ¬ matches filt (with_id (o, f)).
Proof.
  intros Hnil%head_None o f Hc Hm.
  assert ((o, f) ∈ select c filt) as Hin by by apply select_elem_of.
  rewrite Hnil in Hin. by apply elem_of_nil in Hin.
Qed.

Lemma NewsletterSubscriber_dump_email (sub : NewsletterSubscriber.t) :
  model_dump sub !! "email" = Some (VStr (NewsletterSubscriber.email sub)).
Proof. reflexivity. Qed.

(** What [subscribe] computes, by the result of the lookup by e-mail. *)
Lemma subscribe_unfold (sub : NewsletterSubscriber.t) (db : Database) :
  subscribe repr_builtin sub db
  = match head (select (subscribers db) (by_email (NewsletterSubscriber.email sub))) with
    | Some (o, f) =>
        (<["newslettersubscriber" := <[o := model_dump sub ∪ f]> (subscribers db)]> db,
         Return {[ "id" := VStr (ObjectId_str o); "updated" := VBool true ]})
    | None =>
        let new_id := ObjectId_new (subscribers db) in
        (<["newslettersubscriber" := <[new_id := model_dump sub]> (subscribers db)]> db,
         Return {[ "id" := VStr (ObjectId_str new_id); "updated" := VBool false ]})
    end.
Proof.
  unfold subscribe, find_one, find. unfold bind at 1 2. unfold get, ret.
  destruct (select _ _) as [|[o f] rest] eqn:Hsel; simpl.
  - unfold bind, ret. by rewrite create_document_fresh.
  - assert (subscribers db !! o = Some f) as Hof.
    { assert ((o, f) ∈ select (subscribers db)
                         (by_email (NewsletterSubscriber.email sub))) as Hin
        by (rewrite Hsel; left).
      by apply select_elem_of in Hin as [Hin _]. }
    rewrite bool_decide_eq_true_2 by apply (with_id_nonempty (o, f)).
    unfold bind, getitem. rewrite (with_id_lookup_id (o, f)). simpl.
    unfold ret, update_one, bind, get. rewrite select_by_id, Hof. simpl.
    reflexivity.
Qed.

(** The collection after one call: one document, [o], is written; either it
    was there with the same e-mail, or it is new and no document had that
    e-mail. *)
Lemma subscribe_step (sub : NewsletterSubscriber.t) (db : Database) :
  let e := NewsletterSubscriber.email sub in
  ∃ o f',
    subscribers (subscribe repr_builtin sub db).1 = <[o := f']> (subscribers db)
    ∧ f' !! "email" = Some (VStr e)
    ∧ model_dump sub ⊆ f'
    ∧ ((∃ f, subscribers db !! o = Some f ∧ f !! "email" = Some (VStr e))
       ∨ (subscribers db !! o = None
          ∧ ∀ o' f, subscribers db !! o' = Some f → f !! "email" ≠ Some (VStr e))).
Proof.
  intros e. rewrite subscribe_unfold. fold e.
  destruct (head _) as [[o f]|] eqn:Hhd; simpl.
  - apply head_select_Some in Hhd as [Hof Hm]. apply matches_email in Hm.
    exists o, (model_dump sub ∪ f). rewrite getcollection_insert_eq.
    split; [done|]. split; [by apply lookup_union_Some_l|].
    split; [apply map_union_subseteq_l|]. left. by exists f.
  - exists (ObjectId_new (subscribers db)), (model_dump sub).
    rewrite getcollection_insert_eq. split; [done|]. split; [done|].
    split; [done|]. right. split; [apply ObjectId_new_fresh|].
    intros o' f Hf Hemail. eapply head_select_None; [exact Hhd|exact Hf|].
    by apply matches_email.
Qed.

Lemma subscribe_preserves_unique (sub : NewsletterSubscriber.t) (db : Database) :
  unique_email (subscribers db) →
  unique_email (subscribers (subscribe repr_builtin sub db).1).
Proof.
  intros Huniq.
  destruct (subscribe_step sub db) as (o & f' & -> & Hemail & _ & Hcase).
  assert (∀ o' f, subscribers db !! o' = Some f →
                  f !! "email" = Some (VStr (NewsletterSubscriber.email sub)) → o' = o)
    as Honly.
  { intros o' f Hf He. destruct Hcase as [(f0 & Hf0 & He0)|[_ Hno]].
    - by eapply Huniq.
    - by destruct (Hno o' f). }
  intros o1 o2 f1 f2 v H1 H2 E1 E2.
  apply lookup_insert_Some in H1 as [[<- <-]|[Hne1 H1]];
    apply lookup_insert_Some in H2 as [[<- <-]|[Hne2 H2]].
  - done.
  - symmetry. eapply Honly; [exact H2|]. congruence.
  - eapply Honly; [exact H1|]. congruence.
  - by eapply Huniq.
Qed.

Lemma subscribe_all_preserves_unique (subs : list NewsletterSubscriber.t)
    (db : Database) :
  unique_email (subscribers db) →
  unique_email (subscribers (subscribe_all repr_builtin subs db)).
Proof.
  revert db. induction subs as [|sub subs IH]; intros db Huniq; [done|].
  simpl. apply IH. by apply subscribe_preserves_unique.
Qed.

(** After a call with e-mail [e], the lookup by [e] finds one document, and
    it holds the fields of the call. *)
Lemma subscribe_then_find (sub : NewsletterSubscriber.t) (db : Database) :
  unique_email (subscribers db) →
  ∃ d, find (subscribers (subscribe repr_builtin sub db).1)
         (by_email (NewsletterSubscriber.email sub)) = [d]
       ∧ model_dump sub ⊆ d.
Proof.
  intros Huniq. pose proof (subscribe_preserves_unique sub db Huniq) as Huniq'.
  destruct (subscribe_step sub db) as (o & f' & Hc' & Hemail & Hsub & _).
  rewrite Hc' in *. exists (with_id (o, f')). split.
  - apply NoDup_singleton_all; [apply NoDup_find| |].
    + apply find_elem_of. exists o, f'. rewrite lookup_insert_eq.
      split; [done|]. split; [done|]. by apply matches_email.
    + intros y (o' & f & Hf & -> & Hm)%find_elem_of.
      apply matches_email in Hm. simpl in Hm.
      assert (o' = o) as ->.
      { eapply Huniq'; [exact Hf|apply lookup_insert_eq|exact Hm|exact Hemail]. }
      rewrite lookup_insert_eq in Hf. congruence.
  - apply insert_subseteq_r; [reflexivity|done].
Qed.

(** A call with another e-mail does not change what the lookup by [e]
    finds. *)
Lemma subscribe_other_find (sub : NewsletterSubscriber.t) (db : Database) (e : string) :
  NewsletterSubscriber.email sub ≠ e →
  find (subscribers (subscribe repr_builtin sub db).1) (by_email e)
  ≡ₚ find (subscribers db) (by_email e).
Proof.
  intros Hne. destruct (subscribe_step sub db) as (o & f' & -> & Hemail & _ & Hcase).
  apply NoDup_Permutation; [apply NoDup_find..|]. intros d.
  rewrite !find_elem_of. split.
  - intros (o' & f & Hf & -> & Hm). exists o', f. split; [|done].
    apply lookup_insert_Some in Hf as [[<- <-]|[_ Hf]]; [|done].
    apply matches_email in Hm. simpl in Hm. congruence.
  - intros (o' & f & Hf & -> & Hm). exists o', f. split; [|done].
    rewrite lookup_insert_ne; [done|]. intros <-.
    apply matches_email in Hm. simpl in Hm.
    destruct Hcase as [(f0 & Hf0 & He0)|[Hnone _]]; congruence.
Qed.

Lemma subscribe_all_snoc (subs : list NewsletterSubscriber.t)
    (sub : NewsletterSubscriber.t) (db : Database) :
  subscribe_all repr_builtin (subs ++ [sub]) db
  = (subscribe repr_builtin sub (subscribe_all repr_builtin subs db)).1.
Proof. unfold subscribe_all. by rewrite foldl_snoc. Qed.

(** After any sequence of calls, the lookup by an e-mail that was used finds
    one document, holding the fields of the latest call with that e-mail. *)
Lemma subscribe_all_then_find (subs : list NewsletterSubscriber.t) (db : Database)
    (e : string) (sub : NewsletterSubscriber.t) :
  unique_email (subscribers db) →
  latest_call e subs = Some sub →
  ∃ d, find (subscribers (subscribe_all repr_builtin subs db)) (by_email e) = [d]
       ∧ model_dump sub ⊆ d.
Proof.
  intros Huniq. revert sub.
  induction subs as [|s subs IH] using rev_ind; intros sub; [done|].
  unfold latest_call. rewrite filter_app, subscribe_all_snoc.
  rewrite filter_cons, filter_nil.
  destruct (decide (NewsletterSubscriber.email s = e)) as [<-|Hne].
  - rewrite last_snoc. intros [= <-].
    by apply subscribe_then_find, subscribe_all_preserves_unique.
  - rewrite app_nil_r. intros Hlast.
    destruct (IH sub Hlast) as (d & Hfind & Hd). exists d. split; [|done].
    apply Permutation_singleton_r. rewrite <- Hfind.
    by apply subscribe_other_find.
Qed.

(** C2. POST /api/newsletter: when no stored subscriber has the e-mail of
    the payload, one document holding the payload is inserted under an
    identifier not in use and the answer carries [updated = False]; when
    one has it, that document gets the fields of the payload under the
    identifier it had, the set of identifiers is unchanged, and the answer
    carries [updated = True]; and from a state with at most one subscriber
    per e-mail, after any sequence of calls the lookup by an e-mail yields
    exactly one document, which holds the fields of the latest call made
    with that e-mail. *)
Theorem subscribe_upsert (db : Database) :
  let POST sub := route 201 JSONObject (subscribe repr_builtin sub) in
  (∀ sub,
     (∀ o f, subscribers db !! o = Some f →
             f !! "email" ≠ Some (VStr (NewsletterSubscriber.email sub))) →
     let new_id := ObjectId_new (subscribers db) in
     subscribers db !! new_id = None
     ∧ POST sub db
       = (<["newslettersubscriber" := <[new_id := model_dump sub]> (subscribers db)]> db,
          mkResponse 201
            (JSONObject {[ "id" := VStr (ObjectId_str new_id);
                           "updated" := VBool false ]})))
  ∧ (∀ sub,
       (∃ o f, subscribers db !! o = Some f
               ∧ f !! "email" = Some (VStr (NewsletterSubscriber.email sub))) →
       ∃ o f,
         subscribers db !! o = Some f
         ∧ f !! "email" = Some (VStr (NewsletterSubscriber.email sub))
         ∧ POST sub db
           = (<["newslettersubscriber" := <[o := model_dump sub ∪ f]> (subscribers db)]> db,
              mkResponse 201
                (JSONObject {[ "id" := VStr (ObjectId_str o);
                               "updated" := VBool true ]}))
         ∧ model_dump sub ⊆ model_dump sub ∪ f
         ∧ dom (<[o := model_dump sub ∪ f]> (subscribers db)) = dom (subscribers db))
  ∧ (unique_email (subscribers db) →
     ∀ subs e sub,
       latest_call e subs = Some sub →
       ∃ d, find (subscribers (subscribe_all repr_builtin subs db)) (by_email e) = [d]
            ∧ model_dump sub ⊆ d).
Proof.
  intros POST. subst POST. unfold route. split; [|split].
  - intros sub Hno. split; [apply ObjectId_new_fresh|].
    rewrite subscribe_unfold. destruct (head _) as [[o f]|] eqn:Hhd; [|done].
    apply head_select_Some in Hhd as [Hof Hm]. apply matches_email in Hm.
    by destruct (Hno o f Hof).
  - intros sub (o0 & f0 & Hf0 & He0). rewrite subscribe_unfold.
    destruct (head _) as [[o f]|] eqn:Hhd.
    + apply head_select_Some in Hhd as [Hof Hm]. apply matches_email in Hm.
      exists o, f. split; [done|]. split; [done|]. split; [done|].
      split; [apply map_union_subseteq_l|].
      apply dom_insert_lookup_L. by exists f.
    + exfalso. eapply head_select_None; [exact Hhd|exact Hf0|].
      by apply matches_email.
  - intros Huniq subs e sub. by apply subscribe_all_then_find.
Qed.

End Newsletter.

(** ** Login *)

Section Login.

Context (repr_builtin : value → string) (sha256_hexdigest : string → string).

Local Abbreviation users db := (getcollection db "user").
Local Abbreviation by_email e := ({[ "email" := VStr e ]} : dict).

(** What [login_user] computes, by the result of the lookup by e-mail. *)
Lemma login_user_unfold (db : Database) (email password : string) :
  login_user repr_builtin sha256_hexdigest email password db
  = match head (select (users db) (by_email email)) with
    | Some (o, f) =>
        if decide (f !! "password_hash"
                   = Some (VStr (hash_password sha256_hexdigest password)))
        then (db, Return {[ "token" := VStr (sha256_hexdigest
                                               (email ++ ":" ++ ObjectId_str o));
                            "name" := default VNone (f !! "name");
                            "email" := VStr email;
                            "loyalty_points" := default (VInt 0) (f !! "loyalty_points") ]})
        else (db, Raise (HTTPException 401 "Invalid credentials"))
    | None => (db, Raise (HTTPException 401 "Invalid credentials"))
    end.
Proof.
  unfold login_user, find_one, find. unfold bind, get, ret.
  destruct (select _ _) as [|[o f] rest]; simpl; [done|].
  rewrite bool_decide_eq_true_2 by apply (with_id_nonempty (o, f)). simpl.
  unfold dict_get. rewrite (with_id_lookup_id (o, f)).
  rewrite !(with_id_lookup_ne (o, f)) by done. simpl.
  destruct (decide (f !! "password_hash" = _)) as [Hpw|Hpw].
  - rewrite Hpw. simpl. rewrite bool_decide_eq_false_2; [done|]. by intros [].
  - rewrite bool_decide_eq_true_2; [done|].
    intros Heq. apply Hpw. destruct (f !! "password_hash"); simpl in *; congruence.
Qed.

(** With at most one user per e-mail, the lookup by e-mail returns the user
    that has it. *)
Lemma unique_email_head_select (c : collection) (e : string) (o : ObjectId) (f : dict) :
  unique_email c → c !! o = Some f → f !! "email" = Some (VStr e) →
  head (select c (by_email e)) = Some (o, f).
Proof.
  intros Huniq Hf He.
  assert ((o, f) ∈ select c (by_email e)) as Hin.
  { apply select_elem_of. split; [done|].
    apply matches_singleton. by rewrite with_id_lookup_ne. }
  destruct (select c (by_email e)) as [|[o' f'] rest] eqn:Hsel.
  - by apply elem_of_nil in Hin.
  - assert ((o', f') ∈ select c (by_email e)) as Hin' by (rewrite Hsel; left).
    apply select_elem_of in Hin' as [Hf' Hm]. simpl in *.
    apply matches_singleton in Hm. rewrite with_id_lookup_ne in Hm by done.
    simpl in Hm. assert (o' = o) as -> by by eapply Huniq.
    congruence.
Qed.

(** C4. POST /api/auth/login: when no user has the e-mail, and when the
    user found has a [password_hash] other than the SHA-256 hex digest of
    the password, the answer is the same: status 401 with detail
    "Invalid credentials".  When the digest equals the stored hash, the
    answer is status 200 with the token (the digest of the e-mail, a colon
    and the printed identifier), the stored name, the e-mail, and the
    stored [loyalty_points], 0 when the field is absent.  The user found is
    a stored user with that e-mail, and the only one when e-mails are
    unique. *)
Theorem login_user_responses (db : Database) (email password : string) :
  let POST := route 200 JSONObject
                (login_user repr_builtin sha256_hexdigest email password) in
  let unauthorized :=
    (db, mkResponse 401 (JSONObject {[ "detail" := VStr "Invalid credentials" ]})) in
  ((∀ o f, users db !! o = Some f → f !! "email" ≠ Some (VStr email)) →
     POST db = unauthorized)
  ∧ (∀ o f, head (select (users db) (by_email email)) = Some (o, f) →
       users db !! o = Some f
       ∧ f !! "email" = Some (VStr email)
       ∧ (f !! "password_hash" ≠ Some (VStr (hash_password sha256_hexdigest password)) →
            POST db = unauthorized)
       ∧ (f !! "password_hash" = Some (VStr (hash_password sha256_hexdigest password)) →
            POST db
            = (db, mkResponse 200
                     (JSONObject
                        {[ "token" := VStr (sha256_hexdigest
                                              (email ++ ":" ++ ObjectId_str o));
                           "name" := default VNone (f !! "name");
                           "email" := VStr email;
                           "loyalty_points" := default (VInt 0) (f !! "loyalty_points") ]}))))
  ∧ (unique_email (users db) →
     ∀ o f, users db !! o = Some f → f !! "email" = Some (VStr email) →
            head (select (users db) (by_email email)) = Some (o, f)).
Proof.
  intros POST unauthorized. subst POST unauthorized. unfold route.
  split; [|split].
  - intros Hno. rewrite login_user_unfold.
    destruct (head _) as [[o f]|] eqn:Hhd; [|done].
    apply head_Some_elem_of, select_elem_of in Hhd as [Hf Hm]. simpl in *.
    apply matches_singleton in Hm. rewrite with_id_lookup_ne in Hm by done.
    by destruct (Hno o f Hf).
  - intros o f Hhd. rewrite login_user_unfold, Hhd.
    apply head_Some_elem_of, select_elem_of in Hhd as [Hf Hm]. simpl in *.
    apply matches_singleton in Hm. rewrite with_id_lookup_ne in Hm by done.
    split; [done|]. split; [done|].
    split; intros Hpw; by destruct (decide _).
  - intros Huniq o f Hf He. by apply unique_email_head_select.
Qed.

End Login.

(** ** The diagnostic route *)

Lemma str_prefix_first_characters (n : nat) (text : string) :
  first_characters n text (str_prefix n text).
Proof.
  revert n. induction text as [|c text IH]; intros n.
  - exists "". split; [done|]. split; [simpl; lia|done].
  - simpl. destruct (is_continuation c) eqn:Hc.
    + destruct (IH n) as (rest & Htext & Hlen & Hrest). exists rest.
      split; [by rewrite Htext at 1|]. split; [|done].
      simpl. by rewrite Hc.
    + destruct n as [|n].
      * exists (String c text). split; [done|]. split; [done|exact Hc].
      * destruct (IH n) as (rest & Htext & Hlen & Hrest). exists rest.
        split; [by rewrite Htext at 1|]. split; [|done].
        simpl. rewrite Hc, Hlen. done.
Qed.

Lemma first_characters_unique (n : nat) (text shown : string) :
  first_characters n text shown → shown = str_prefix n text.
Proof.
  revert n shown. induction text as [|c text IH]; intros n shown (rest & Htext & Hlen & Hrest).
  - by destruct shown.
  - destruct shown as [|c' shown].
    + change (String c text = rest) in Htext. subst rest.
      simpl in Hlen. rewrite Hrest in Hlen.
      simpl. rewrite Hrest. by destruct n.
    + change (String c text = String c' (shown ++ rest)) in Htext.
      injection Htext as <- Htext. simpl in *.
      destruct (is_continuation c).
      * f_equal. apply IH. by exists rest.
      * destruct n as [|n]; [done|]. f_equal. apply IH. exists rest.
        split; [done|]. split; [|done]. simpl in Hlen. lia.
Qed.

(** C5. GET /test returns a status object and never raises, whatever the
    handle is: when there is no handle the ["database"] field says so;
    when reading the handle's name raises, or listing the collections
    raises, the exception is caught and the field holds the first 50
    characters of its message after a fixed prefix; when the listing works
    the field says so and ["collections"] holds the first 10 names.  In every
    case ["collections"] holds at most 10 names.  The text [str_prefix 50 msg]
    that is shown is the first 50 characters of [msg], and nothing else
    is. *)
Theorem test_database_never_raises (db : option handle) (environ : gmap string string) :
  ∃ response,
    test_database db environ = Return response
    ∧ response !! "backend" = Some (VStr "✅ Running")
    ∧ (∃ names, response !! "collections" = Some (VList (VStr <$> names))
                ∧ (length names ≤ 10)%nat)
    ∧ (∀ msg, first_characters 50 msg (str_prefix 50 msg))
    ∧ (∀ msg shown, first_characters 50 msg shown → shown = str_prefix 50 msg)
    ∧ match db with
      | None =>
          response !! "database" = Some (VStr "⚠️  Available but not initialized")
          ∧ response !! "connection_status" = Some (VStr "Not Connected")
      | Some h =>
          match handle_name h, list_collection_names h with
          | AttrRaises msg, _ =>
              response !! "database"
              = Some (VStr ("❌ Error: " ++ str_prefix 50 msg))
          | _, Raise e =>
              response !! "database"
              = Some (VStr ("⚠️  Connected but Error: " ++ str_prefix 50 (exn_str e)))
              ∧ response !! "connection_status" = Some (VStr "Connected")
          | _, Return names =>
              response !! "database" = Some (VStr "✅ Connected & Working")
              ∧ response !! "connection_status" = Some (VStr "Connected")
              ∧ response !! "collections" = Some (VList (VStr <$> take 10 names))
          end
      end.
Proof.
  assert (∀ names : list string, (length (take 10 names) ≤ 10)%nat) as Htake.
  { intros names. rewrite length_take. lia. }
  destruct db as [[[|msg|v] [names|e]]|].
  all: eexists; split; [reflexivity|].
  all: split; [reflexivity|].
  all: split; [first [ exists (take 10 names); split; [reflexivity|apply Htake]
                     | exists []; split; [reflexivity|simpl; lia] ]|].
  all: split; [intros; apply str_prefix_first_characters|].
  all: split; [intros msg0 shown; apply first_characters_unique|].
  all: repeat split.
Qed.

(** ** The process entry point *)

(** C9, as amended. Run as a process, the service asks for a listener on
    all interfaces; the port is 8000 when PORT is unset and the integer
    PORT denotes when it is set to one; when PORT is set to a value that
    [int()] does not parse, the conversion error is raised and no listener
    is asked for. *)
Theorem main_listener (int_non_ascii : string → outcome Z)
    (environ : gmap string string) :
  (environ !! "PORT" = None →
     main int_non_ascii environ = Return (mkListener "0.0.0.0" 8000))
  ∧ (∀ s n, environ !! "PORT" = Some s → int_of_str int_non_ascii s = Return n →
       main int_non_ascii environ = Return (mkListener "0.0.0.0" n))
  ∧ (∀ s e, environ !! "PORT" = Some s → int_of_str int_non_ascii s = Raise e →
       main int_non_ascii environ = Raise e).
Proof.
  unfold main, getenv_default, int. repeat split.
  - by intros ->.
  - by intros s n -> ->.
  - by intros s e -> ->.
Qed.

(** ** The properties on the sample data *)


Lemma register_event_event_id_from_path_witness :
  ∃ (new_id : ObjectId) (doc : dict),
    getcollection sample_db "eventregistration" !! new_id = None
    ∧ getcollection
        (register_event "000000000000000000000005" sample_registration sample_db).1
        "eventregistration"
      = <[new_id := doc]> (getcollection sample_db "eventregistration")
    ∧ doc !! "event_id" = Some (VStr "000000000000000000000005").
Proof.
  destruct (proj2 (register_event_event_id_from_path sample_db
                     "000000000000000000000005")
              sample_registration _ _ eq_refl)
    as (new_id & doc & Hfresh & Hcoll & Hevent & _).
  exists new_id, doc. split; [exact Hfresh|]. split; [exact Hcoll|exact Hevent].
Defined.

Lemma create_post_published_at_witness :
  (∃ doc : dict,
     getcollection (create_post 1700000000%Z sample_post sample_db).1 "blogpost" !! 0%N
     = Some doc
     ∧ doc !! "published_at" = Some (VDatetime 1700000000%Z))
  ∧ (∃ doc : dict, doc !! "published_at" = Some (VDatetime 1600000000%Z)).
Proof.
  split.
  - destruct (create_post_published_at sample_db 1700000000%Z sample_post)
      as (doc & _ & Hrun & Hnone & _).
    exists doc. split; [|by apply Hnone].
    unfold route in Hrun. destruct (create_post _ _ _) as [db' o]. simpl.
    injection Hrun as -> _. rewrite getcollection_insert_eq. apply lookup_insert_eq.
  - destruct (create_post_published_at sample_db 1700000000%Z
                (BlogPost.mk "News" "Text" None None [] (Some 1600000000%Z)))
      as (doc & _ & _ & _ & Hsome).
    exists doc. by apply Hsome.
Defined.

Lemma sample_priced_items_lookup (o : ObjectId) (f : dict) :
  getcollection sample_priced_menu "menuitem" !! o = Some f →
  f !! "is_active" = Some (VBool true) →
  o = 1%N
  ∧ f = {[ "title" := VStr "Flat white"; "price" := VFloat (S754_zero false);
           "category" := VStr "coffee"; "is_active" := VBool true ]}.
Proof.
  change (getcollection sample_priced_menu "menuitem") with sample_priced_items.
  unfold sample_priced_items.
  intros [[<- <-]|[_ [<- <-]%lookup_singleton_Some]]%lookup_insert_Some Hact;
    [done|]. by vm_compute in Hact.
Qed.

Lemma sample_MenuItem_parse_is_active (d : dict) (b : bool) (m : MenuItem.t) :
  d !! "is_active" = Some (VBool b) → sample_MenuItem_parse d = Some m →
  MenuItem.is_active m = b.
Proof.
  intros Hb Hm. unfold sample_MenuItem_parse in Hm. rewrite Hb in Hm.
  destruct (d !! "title") as [[]|]; try done.
  destruct (d !! "price") as [[]|]; try done.
  destruct (d !! "category") as [[]|]; try done.
  by injection Hm as <-.
Qed.

Lemma get_menu_active_only_witness :
  ∃ items,
    get_menu sample_MenuItem_parse sample_priced_menu
    = (sample_priced_menu, mkResponse 200 (JSONArray items))
    ∧ length items = 1%nat
    ∧ (∀ r, r ∈ items → r !! "title" = Some (VStr "Flat white")
                        ∧ r !! "is_active" = Some (VBool true)
                        ∧ r !! "_id" = None).
Proof.
  destruct (proj1 (get_menu_active_only sample_MenuItem_parse sample_priced_menu))
    as (items & Hrun & Hmem & Hno & Hlen & Hact).
  - intros o f Hf Hactive.
    destruct (sample_priced_items_lookup o f Hf Hactive) as [-> ->].
    eexists. vm_compute. reflexivity.
  - exists items. split; [exact Hrun|]. split; [rewrite Hlen; reflexivity|].
    intros r Hr. split; [|split].
    + apply Hmem in Hr as (o & f & m & Hf & Hactive & Hm & ->).
      destruct (sample_priced_items_lookup o f Hf Hactive) as [-> ->].
      vm_compute in Hm. injection Hm as <-. reflexivity.
    + apply Hact; [exact sample_MenuItem_parse_is_active|done].
    + by apply Hno.
Defined.

(** C3, as stated for every database state, fails: with an active document
    stored without a price the route returns no list at all, whatever the
    validation library does with the values of a complete document; it
    answers 500. *)
Lemma get_menu_missing_price_counterexample :
  let menu := getcollection sample_db "menuitem" in
  let flat_white : dict :=
    {[ "title" := VStr "Flat white"; "category" := VStr "coffee";
       "is_active" := VBool true ]} in
  menu !! 1%N = Some flat_white
  ∧ flat_white !! "is_active" = Some (VBool true)
  ∧ flat_white !! "price" = None
  ∧ list_menu sample_db = (sample_db, Return [flat_white])
  ∧ (∀ MenuItem_parse,
       get_menu MenuItem_parse sample_db
       = (sample_db, mkResponse 500 (PlainText "Internal Server Error")))
  ∧ (∀ MenuItem_parse items,
       get_menu MenuItem_parse sample_db
       ≠ (sample_db, mkResponse 200 (JSONArray items))).
Proof.
  intros menu flat_white.
  assert (list_menu sample_db = (sample_db, Return [flat_white])) as Hrun
    by (vm_compute; reflexivity).
  assert (∀ MenuItem_parse,
            get_menu MenuItem_parse sample_db
            = (sample_db, mkResponse 500 (PlainText "Internal Server Error")))
    as Hfail.
  { intros MenuItem_parse. unfold get_menu, route, bind. rewrite Hrun.
    reflexivity. }
  split; [reflexivity|]. split; [reflexivity|]. split; [reflexivity|].
  split; [exact Hrun|]. split; [exact Hfail|].
  intros MenuItem_parse items. by rewrite Hfail.
Qed.

Lemma create_then_list_roundtrip_witness :
  ∃ db' new_id docs r,
    create_reservation sample_reservation sample_db
    = (db', Return {[ "id" := VStr new_id; "status" := VStr "confirmed" ]})
    ∧ list_reservations sample_repr (Some "ana@example.com") db' = (db', Return docs)
    ∧ r ∈ docs
    ∧ listed_as new_id (model_dump sample_reservation) r.
Proof.
  exact (proj2 (proj2 (proj2 (create_then_list_roundtrip sample_repr sample_db)))
           sample_reservation (Some "ana@example.com") (or_intror eq_refl)).
Defined.

Lemma unique_email_sample_subscribers :
  unique_email (getcollection sample_db "newslettersubscriber").
Proof.
  intros o1 o2 f1 f2 e H1 H2 _ _.
  change (getcollection sample_db "newslettersubscriber")
    with sample_subscribers in *.
  unfold sample_subscribers in *.
  apply lookup_singleton_Some in H1 as [<- _].
  by apply lookup_singleton_Some in H2 as [<- _].
Qed.

Lemma subscribe_upsert_witness :
  (∃ db', route 201 JSONObject
            (subscribe sample_repr
               (NewsletterSubscriber.mk "bo@example.com" None (Some "website")))
            sample_db
          = (db', mkResponse 201
                    (JSONObject {[ "id" := VStr "000000000000000000000008";
                                   "updated" := VBool false ]})))
  ∧ (∃ o db', route 201 JSONObject
                (subscribe sample_repr
                   (NewsletterSubscriber.mk "ana@example.com" (Some "Ana") (Some "footer")))
                sample_db
              = (db', mkResponse 201
                        (JSONObject {[ "id" := VStr (ObjectId_str o);
                                       "updated" := VBool true ]})))
  ∧ (∃ d : dict,
       find (getcollection
               (subscribe_all sample_repr
                  [NewsletterSubscriber.mk "bo@example.com" None (Some "website");
                   NewsletterSubscriber.mk "bo@example.com" (Some "Bo") (Some "footer");
                   NewsletterSubscriber.mk "ana@example.com" (Some "Ana") None]
                  sample_db)
               "newslettersubscriber")
         {[ "email" := VStr "bo@example.com" ]} = [d]
       ∧ d !! "name" = Some (VStr "Bo")).
Proof.
  split; [|split].
  - destruct (proj1 (subscribe_upsert sample_repr sample_db)
                (NewsletterSubscriber.mk "bo@example.com" None (Some "website")))
      as [_ Hrun].
    + intros o f Hf.
      change (getcollection sample_db "newslettersubscriber")
        with sample_subscribers in Hf.
      unfold sample_subscribers in Hf.
      apply lookup_singleton_Some in Hf as [_ <-]. vm_compute. discriminate.
    + eexists. rewrite Hrun. apply (f_equal (pair _)). vm_compute. reflexivity.
  - destruct (proj1 (proj2 (subscribe_upsert sample_repr sample_db))
                (NewsletterSubscriber.mk "ana@example.com" (Some "Ana") (Some "footer")))
      as (o & f & _ & _ & Hrun & _).
    + exists 7%N. eexists. split; reflexivity.
    + exists o. eexists. exact Hrun.
  - destruct (proj2 (proj2 (subscribe_upsert sample_repr sample_db))
                unique_email_sample_subscribers
                [NewsletterSubscriber.mk "bo@example.com" None (Some "website");
                 NewsletterSubscriber.mk "bo@example.com" (Some "Bo") (Some "footer");
                 NewsletterSubscriber.mk "ana@example.com" (Some "Ana") None]
                "bo@example.com"
                (NewsletterSubscriber.mk "bo@example.com" (Some "Bo") (Some "footer"))
                eq_refl)
      as (d & Hfind & Hsub).
    exists d. split; [exact Hfind|].
    eapply lookup_weaken; [|exact Hsub]. reflexivity.
Defined.

Lemma login_user_responses_witness :
  route 200 JSONObject
    (login_user sample_repr sample_digest "nobody@example.com" "s3cret") sample_db
  = (sample_db, mkResponse 401 (JSONObject {[ "detail" := VStr "Invalid credentials" ]}))
  ∧ route 200 JSONObject
      (login_user sample_repr sample_digest "ana@example.com" "wrong") sample_db
    = (sample_db, mkResponse 401 (JSONObject {[ "detail" := VStr "Invalid credentials" ]}))
  ∧ route 200 JSONObject
      (login_user sample_repr sample_digest "ana@example.com" "s3cret") sample_db
    = (sample_db,
       mkResponse 200
         (JSONObject
            {[ "token" := VStr (sample_digest
                                  "ana@example.com:000000000000000000000009");
               "name" := VStr "Ana";
               "email" := VStr "ana@example.com";
               "loyalty_points" := VInt 0 ]})).
Proof.
  split; [|split].
  - eapply (proj1 (login_user_responses sample_repr sample_digest sample_db
                     "nobody@example.com" "s3cret")).
    intros o f Hf.
    change (getcollection sample_db "user") with sample_users in Hf.
    unfold sample_users in Hf.
    apply lookup_singleton_Some in Hf as [_ <-]. vm_compute. discriminate.
  - eapply (proj1 (proj2 (proj2 (proj1 (proj2
              (login_user_responses sample_repr sample_digest sample_db
                 "ana@example.com" "wrong")) 9%N _ eq_refl)))).
    vm_compute. discriminate.
  - eapply (proj2 (proj2 (proj2 (proj1 (proj2
              (login_user_responses sample_repr sample_digest sample_db
                 "ana@example.com" "s3cret")) 9%N _ eq_refl)))).
    reflexivity.
Defined.

Lemma main_listener_witness :
  main sample_int_non_ascii ∅ = Return (mkListener "0.0.0.0" 8000%Z)
  ∧ main sample_int_non_ascii {[ "PORT" := "8080" ]}
    = Return (mkListener "0.0.0.0" 8080%Z)
  ∧ main sample_int_non_ascii {[ "PORT" := "eight thousand" ]} = invalid_literal.
Proof.
  split; [|split].
  - apply (proj1 (main_listener sample_int_non_ascii ∅)). reflexivity.
  - apply (proj1 (proj2 (main_listener sample_int_non_ascii {[ "PORT" := "8080" ]}))
             "8080"); reflexivity.
  - apply (proj2 (proj2 (main_listener sample_int_non_ascii
                           {[ "PORT" := "eight thousand" ]}))
             "eight thousand"); reflexivity.
Defined.

(** C9, as stated, fails: with PORT set to a text that is not an integer,
    the claim's condition holds ([int()] does not parse it), and the
    service does not listen on port 8000; the conversion error is raised.
    The text is ASCII, so [int()] is the function spelled out above,
    whatever it does on other texts. *)
Lemma main_unparseable_port_counterexample :
  let environ : gmap string string := {[ "PORT" := "abc" ]} in
  environ !! "PORT" = Some "abc"
  ∧ is_ascii "abc" = true
  ∧ int_of_str sample_int_non_ascii "abc" = invalid_literal
  ∧ main sample_int_non_ascii environ = invalid_literal
  ∧ main sample_int_non_ascii environ ≠ Return (mkListener "0.0.0.0" 8000).
Proof. repeat split. discriminate. Qed.

(** * Further properties of the handlers *)

(** ** Identifiers *)

Lemma hex_char_cases (d : N) (P : ascii → Prop) :
  (d < 16)%N →
  (∀ c, c ∈ ["0"; "1"; "2"; "3"; "4"; "5"; "6"; "7"; "8"; "9";
              "a"; "b"; "c"; "d"; "e"; "f"]%char → P c) →
  P (hex_char d).
Proof.
  intros Hd HP. apply HP.
  assert (d = 0 ∨ d = 1 ∨ d = 2 ∨ d = 3 ∨ d = 4 ∨ d = 5 ∨ d = 6 ∨ d = 7
          ∨ d = 8 ∨ d = 9 ∨ d = 10 ∨ d = 11 ∨ d = 12 ∨ d = 13 ∨ d = 14
          ∨ d = 15)%N as Hcases by lia.
  repeat (destruct Hcases as [->|Hcases]; [set_solver|]). subst. set_solver.
Qed.

Lemma hex_digit_value_hex_char (d : N) :
  (d < 16)%N → hex_digit_value (hex_char d) = Some d.
Proof.
  intros Hd.
  assert (d = 0 ∨ d = 1 ∨ d = 2 ∨ d = 3 ∨ d = 4 ∨ d = 5 ∨ d = 6 ∨ d = 7
          ∨ d = 8 ∨ d = 9 ∨ d = 10 ∨ d = 11 ∨ d = 12 ∨ d = 13 ∨ d = 14
          ∨ d = 15)%N as Hcases by lia.
  repeat (destruct Hcases as [->|Hcases]; [reflexivity|]). by subst.
Qed.

Lemma hex_char_plain (d : N) :
  (d < 16)%N →
  is_space (hex_char d) = false ∧ is_continuation (hex_char d) = false.
Proof.
  intros Hd. apply (hex_char_cases d (λ c, is_space c = false ∧ is_continuation c = false));
    [done|].
  intros c Hc. repeat (apply elem_of_cons in Hc as [->|Hc]; [by split|]).
  by apply elem_of_nil in Hc.
Qed.

Lemma py_len_hex_of (k : nat) (n : N) (acc : string) :
  py_len (hex_of k n acc) = (k + py_len acc)%nat.
Proof.
  revert n acc. induction k as [|k IH]; intros n acc; simpl; [done|].
  rewrite IH. simpl.
  rewrite (proj2 (hex_char_plain (n mod 16) ltac:(apply N.mod_lt; lia))). lia.
Qed.

(** Reading back the bytes whose digits [hex_of] wrote. *)
Lemma bytes_fromhex_hex_of (k : nat) (n : N) (acc : string) (l : list N) :
  bytes_fromhex acc = Some l →
  ∃ l0, bytes_fromhex (hex_of (2 * k) n acc) = Some (l0 ++ l)%list
        ∧ length l0 = k
        ∧ ∀ a l', foldl (λ acc byte, 256 * acc + byte)%N a (l0 ++ l')%list
                  = foldl (λ acc byte, 256 * acc + byte)%N
                      (a * 256 ^ N.of_nat k + n mod 256 ^ N.of_nat k)%N l'.
Proof.
  revert n acc l. induction k as [|k IH]; intros n acc l Hacc.
  - exists []. split; [done|]. split; [done|]. intros a l'. simpl.
    rewrite N.mod_1_r. f_equal. lia.
  - replace (2 * S k)%nat with (S (S (2 * k))) by lia. cbn [hex_of].
    set (c0 := hex_char (n mod 16)). set (c1 := hex_char ((n / 16) mod 16)).
    assert (bytes_fromhex (String c1 (String c0 acc))
            = Some ((16 * ((n / 16) mod 16) + n mod 16)%N :: l)) as Hpair.
    { cbn [bytes_fromhex]. subst c0 c1.
      rewrite (proj1 (hex_char_plain ((n / 16) mod 16) ltac:(apply N.mod_lt; lia))).
      rewrite !hex_digit_value_hex_char by (apply N.mod_lt; lia).
      by rewrite Hacc. }
    destruct (IH (n / 16 / 16)%N _ _ Hpair) as (l0 & Hread & Hlen & Hfold).
    exists (l0 ++ [(16 * ((n / 16) mod 16) + n mod 16)%N])%list.
    split; [by rewrite <- app_assoc|]. split; [rewrite length_app; simpl; lia|].
    intros a l'. rewrite <- app_assoc. simpl. rewrite Hfold. simpl. f_equal.
    rewrite Nat2N.inj_succ, N.pow_succ_r'.
    rewrite N.Div0.div_div. change (16 * 16)%N with 256%N.
    pose proof (N.Div0.mod_mul_r n 256 (256 ^ N.of_nat k)) as Hhigh.
    pose proof (N.Div0.mod_mul_r n 16 16) as Hlow.
    change (16 * 16)%N with 256%N in Hlow.
    rewrite Hhigh, Hlow. lia.
Qed.

Lemma ObjectId_of_str_str (o : ObjectId) :
  (o < ObjectId_bound)%N → ObjectId_of_str (ObjectId_str o) = Return (ObjectId12 o).
Proof.
  intros Ho. unfold ObjectId_of_str, ObjectId_str.
  rewrite py_len_hex_of. simpl py_len. rewrite decide_True by done.
  destruct (bytes_fromhex_hex_of 12 o "" [] eq_refl) as (l0 & Hread & Hlen & Hfold).
  change (2 * 12)%nat with 24%nat in Hread. rewrite Hread.
  rewrite decide_True by (rewrite length_app; simpl; lia).
  unfold int_from_bytes. rewrite Hfold. simpl foldl.
  change (256 ^ N.of_nat 12)%N with ObjectId_bound.
  by rewrite N.mul_0_l, N.add_0_l, N.mod_small.
Qed.

(** X2. The identifier that [create_event] answers with is accepted by
    [register_event]: registering for the event just created succeeds,
    provided the new identifier fits in 12 bytes. *)
Theorem created_event_accepts_registration (db : Database) (event : Event.t)
    (reg : EventRegistration.t) :
  (ObjectId_new (getcollection db "event") < ObjectId_bound)%N →
  ∃ db' new_id,
    create_event event db = (db', Return {[ "id" := VStr new_id ]})
    ∧ ∃ db'' reg_id,
        route 201 JSONObject (register_event new_id reg) db'
        = (db'', mkResponse 201 (JSONObject {[ "id" := VStr reg_id ]}))
        ∧ getcollection db'' "event" = getcollection db' "event".
Proof.
  intros Hbound. unfold create_event, bind, ret.
  rewrite create_document_fresh by reflexivity.
  eexists _, _. split; [reflexivity|].
  unfold route. rewrite register_event_unfold.
  rewrite ObjectId_of_str_str by done.
  rewrite getcollection_insert_eq, lookup_insert_eq.
  eexists _, _. split; [reflexivity|].
  cbv zeta. rewrite getcollection_insert_ne by done.
  by rewrite getcollection_insert_eq.
Qed.

Lemma created_event_accepts_registration_witness :
  ∃ db' new_id,
    create_event (Event.mk "Latte art" None "2025-04-01" "18:00" None (Some 50%Z) (S754_zero false))
      sample_db
    = (db', Return {[ "id" := VStr new_id ]})
    ∧ ∃ db'' reg_id,
        route 201 JSONObject (register_event new_id sample_registration) db'
        = (db'', mkResponse 201 (JSONObject {[ "id" := VStr reg_id ]}))
        ∧ getcollection db'' "event" = getcollection db' "event".
Proof.
  apply (created_event_accepts_registration sample_db). reflexivity.
Defined.

(** ** Accounts *)

Section Accounts.

Context (repr_builtin : value → string) (sha256_hexdigest : string → string).

Local Abbreviation users db := (getcollection db "user").
Local Abbreviation by_email e := ({[ "email" := VStr e ]} : dict).
Local Abbreviation new_user name email password :=
  (User.mk name email (Some (hash_password sha256_hexdigest password)) None true 0).

(** After inserting the only document that satisfies a filter, the filter
    selects that document alone. *)
Lemma select_insert_only (c : collection) (filt : dict) (o : ObjectId) (d : dict) :
  (∀ o' f, c !! o' = Some f → ¬ matches filt (with_id (o', f))) →
  matches filt (with_id (o, d)) →
  select (<[o := d]> c) filt = [(o, d)].
Proof.
  intros Hnone Hm. apply NoDup_singleton_all; [apply NoDup_select| |].
  - apply select_elem_of. by rewrite lookup_insert_eq.
  - intros [o' f] [Hf Hmf]%select_elem_of. simpl in *.
    apply lookup_insert_Some in Hf as [[<- <-]|[_ Hf]]; [done|].
    by destruct (Hnone o' f).
Qed.

(** What [register_user] computes, by the result of the lookup by e-mail. *)
Lemma register_user_unfold (db : Database) (name email password : string) :
  register_user sha256_hexdigest name email password db
  = match head (select (users db) (by_email email)) with
    | Some _ => (db, Raise (HTTPException 400 "Email already registered"))
    | None =>
        let new_id := ObjectId_new (users db) in
        (<["user" := <[new_id := model_dump (new_user name email password)]> (users db)]> db,
         Return {[ "id" := VStr (ObjectId_str new_id) ]})
    end.
Proof.
  unfold register_user, find_one, find. unfold bind at 1 2. unfold get, ret.
  destruct (select _ _) as [|[o f] rest]; simpl.
  - unfold bind, ret. by rewrite insert_one_fresh.
  - by rewrite bool_decide_eq_true_2 by apply (with_id_nonempty (o, f)).
Qed.

Lemma head_select_email_None (c : collection) (e : string) :
  (∀ o f, c !! o = Some f → f !! "email" ≠ Some (VStr e)) →
  head (select c (by_email e)) = None.
Proof.
  intros Hno. destruct (head _) as [[o f]|] eqn:Hhd; [|done].
  apply head_Some_elem_of, select_elem_of in Hhd as [Hf Hm]. simpl in *.
  apply matches_singleton in Hm. rewrite with_id_lookup_ne in Hm by done.
  by destruct (Hno o f Hf).
Qed.

Lemma head_select_email_Some (c : collection) (e : string) (o : ObjectId) (f : dict) :
  c !! o = Some f → f !! "email" = Some (VStr e) →
  is_Some (head (select c (by_email e))).
Proof.
  intros Hf He. apply head_is_Some. intros Hnil.
  assert ((o, f) ∈ select c (by_email e)) as Hin.
  { apply select_elem_of. split; [done|].
    apply matches_singleton. by rewrite with_id_lookup_ne. }
  rewrite Hnil in Hin. by apply elem_of_nil in Hin.
Qed.

(** X3. POST /api/auth/register: when no stored user has the e-mail, one
    user document is inserted under an unused identifier, holding the name,
    the e-mail, the digest of the password (never the password), no avatar,
    membership on and no loyalty points, and the answer is the new
    identifier; when a user has the e-mail the call fails with 400
    "Email already registered" and the database is left as it was. *)
Theorem register_user_responses (db : Database) (name email password : string) :
  let POST := route 200 JSONObject
                (register_user sha256_hexdigest name email password) in
  ((∀ o f, users db !! o = Some f → f !! "email" ≠ Some (VStr email)) →
     let new_id := ObjectId_new (users db) in
     users db !! new_id = None
     ∧ POST db
       = (<["user" :=
              <[new_id :=
                  {[ "name" := VStr name;
                     "email" := VStr email;
                     "password_hash" := VStr (sha256_hexdigest password);
                     "avatar_url" := VNone;
                     "is_member" := VBool true;
                     "loyalty_points" := VInt 0 ]}]> (users db)]> db,
          mkResponse 200 (JSONObject {[ "id" := VStr (ObjectId_str new_id) ]})))
  ∧ ((∃ o f, users db !! o = Some f ∧ f !! "email" = Some (VStr email)) →
       POST db
       = (db, mkResponse 400
                (JSONObject {[ "detail" := VStr "Email already registered" ]}))).
Proof.
  intros POST. subst POST. unfold route. split.
  - intros Hno. split; [apply ObjectId_new_fresh|].
    by rewrite register_user_unfold, head_select_email_None.
  - intros (o & f & Hf & He). rewrite register_user_unfold.
    by destruct (head_select_email_Some _ _ _ _ Hf He) as [p ->].
Qed.

(** X4. A user who registered can log in: after a successful
    [register_user], [login_user] with the same e-mail and password answers
    200 with the name given at registration, no loyalty points and the
    token of the new identifier, and any password with another digest is
    answered 401. *)
Theorem registered_user_can_login (db : Database) (name email password : string) :
  (∀ o f, users db !! o = Some f → f !! "email" ≠ Some (VStr email)) →
  let db' := (register_user sha256_hexdigest name email password db).1 in
  let new_id := ObjectId_new (users db) in
  route 200 JSONObject (login_user repr_builtin sha256_hexdigest email password) db'
  = (db', mkResponse 200
            (JSONObject
               {[ "token" := VStr (sha256_hexdigest
                                     (email ++ ":" ++ ObjectId_str new_id));
                  "name" := VStr name;
                  "email" := VStr email;
                  "loyalty_points" := VInt 0 ]}))
  ∧ (∀ other, sha256_hexdigest other ≠ sha256_hexdigest password →
       route 200 JSONObject (login_user repr_builtin sha256_hexdigest email other) db'
       = (db', mkResponse 401
                 (JSONObject {[ "detail" := VStr "Invalid credentials" ]}))).
Proof.
  intros Hno db' new_id. subst db'. unfold route.
  rewrite register_user_unfold, head_select_email_None by done. simpl. fold new_id.
  assert (select (<[new_id := model_dump (new_user name email password)]> (users db))
            (by_email email)
          = [(new_id, model_dump (new_user name email password))]) as Hsel.
  { apply select_insert_only; [|by apply matches_singleton].
    intros o f Hf Hm. apply matches_singleton in Hm.
    rewrite with_id_lookup_ne in Hm by done. by destruct (Hno o f Hf). }
  split.
  - rewrite login_user_unfold, getcollection_insert_eq, Hsel. simpl.
    by rewrite decide_True by reflexivity.
  - intros other Hother.
    rewrite login_user_unfold, getcollection_insert_eq, Hsel. simpl.
    rewrite decide_False; [done|].
    unfold hash_password. intros [= Heq]. by apply Hother.
Qed.

Lemma register_user_preserves_unique (db : Database) (name email password : string) :
  unique_email (users db) →
  unique_email (users (register_user sha256_hexdigest name email password db).1).
Proof.
  intros Huniq. rewrite register_user_unfold.
  destruct (head _) as [p|] eqn:Hhd; [done|]. simpl.
  rewrite getcollection_insert_eq.
  assert (∀ o f, users db !! o = Some f → f !! "email" ≠ Some (VStr email)) as Hno.
  { intros o f Hf He. eapply head_select_None; [exact Hhd|exact Hf|].
    apply matches_singleton. by rewrite with_id_lookup_ne. }
  intros o1 o2 f1 f2 v H1 H2 E1 E2.
  apply lookup_insert_Some in H1 as [[<- <-]|[_ H1]];
    apply lookup_insert_Some in H2 as [[<- <-]|[_ H2]].
  - done.
  - destruct (Hno o2 f2 H2). rewrite E2, <- E1. reflexivity.
  - destruct (Hno o1 f1 H1). rewrite E1, <- E2. reflexivity.
  - by eapply Huniq.
Qed.

Lemma run_all_cons_fst {A} (call : M Database A) (rest : list (M Database A))
    (db : Database) :
  (run_all (call :: rest) db).1 = (run_all rest (call db).1).1.
Proof. simpl. destruct (call db) as [db' o]. simpl. by destruct (run_all rest db'). Qed.

(** X5. Registration keeps e-mails unique: from a database with at most
    one user per e-mail, any sequence of [register_user] calls, accepted or
    refused, leaves at most one user per e-mail. *)
Theorem register_user_keeps_emails_unique (db : Database)
    (requests : list (string * string * string)) :
  unique_email (users db) →
  unique_email
    (users (run_all ((λ r, register_user sha256_hexdigest r.1.1 r.1.2 r.2) <$> requests)
              db).1).
Proof.
  revert db. induction requests as [|[[name email] password] requests IH];
    intros db Huniq; [done|].
  rewrite fmap_cons, run_all_cons_fst. apply IH. simpl.
  by apply register_user_preserves_unique.
Qed.

(** X6. [login_user] only reads: whatever it answers, the database is the
    one it was given; a failure is always 401 "Invalid credentials"; and a
    successful answer has the fields token, name, email and
    loyalty_points, and no other, so the stored [password_hash] is not among
    them. *)
Theorem login_user_reads_only (db : Database) (email password : string) :
  let result := login_user repr_builtin sha256_hexdigest email password db in
  result.1 = db
  ∧ (∀ e, result.2 = Raise e → e = HTTPException 401 "Invalid credentials")
  ∧ (∀ r : dict, result.2 = Return r →
       dom r = {[ "token"; "name"; "email"; "loyalty_points" ]}
       ∧ r !! "password_hash" = None).
Proof.
  intros result. subst result. rewrite login_user_unfold.
  destruct (head _) as [[o f]|]; [destruct (decide _)|]; simpl.
  - split; [done|]. split; [done|]. intros r [= <-]. split; reflexivity.
  - split; [done|]. split; [by intros e [= <-]|done].
  - split; [done|]. split; [by intros e [= <-]|done].
Qed.

End Accounts.

Lemma registered_user_can_login_witness :
  route 200 JSONObject (login_user sample_repr sample_digest "bo@example.com" "pw")
    (register_user sample_digest "Bo" "bo@example.com" "pw" sample_db).1
  = ((register_user sample_digest "Bo" "bo@example.com" "pw" sample_db).1,
     mkResponse 200
       (JSONObject
          {[ "token" := VStr (sample_digest "bo@example.com:00000000000000000000000a");
             "name" := VStr "Bo";
             "email" := VStr "bo@example.com";
             "loyalty_points" := VInt 0 ]})).
Proof.
  apply (registered_user_can_login sample_repr sample_digest sample_db
           "Bo" "bo@example.com" "pw").
  intros o f Hf. change (getcollection sample_db "user") with sample_users in Hf.
  unfold sample_users in Hf.
  apply lookup_singleton_Some in Hf as [_ <-]. vm_compute. discriminate.
Defined.

Lemma unique_email_sample_users : unique_email (getcollection sample_db "user").
Proof.
  intros o1 o2 f1 f2 e H1 H2 _ _.
  change (getcollection sample_db "user") with sample_users in *.
  unfold sample_users in *.
  apply lookup_singleton_Some in H1 as [<- _].
  by apply lookup_singleton_Some in H2 as [<- _].
Qed.

Lemma register_user_keeps_emails_unique_witness :
  unique_email
    (getcollection
       (run_all ((λ r, register_user sample_digest r.1.1 r.1.2 r.2)
                   <$> [("Bo", "bo@example.com", "pw");
                        ("Bob", "bo@example.com", "other");
                        ("Ana", "ana@example.com", "s3cret")])
          sample_db).1
       "user").
Proof.
  apply (register_user_keeps_emails_unique sample_digest sample_db).
  exact unique_email_sample_users.
Defined.

Lemma register_user_responses_witness :
  route 200 JSONObject (register_user sample_digest "Ana" "ana@example.com" "x") sample_db
  = (sample_db,
     mkResponse 400 (JSONObject {[ "detail" := VStr "Email already registered" ]})).
Proof.
  apply (proj2 (register_user_responses sample_digest sample_db
                  "Ana" "ana@example.com" "x")).
  exists 9%N. eexists. split; reflexivity.
Defined.

(** ** Newsletter, again *)

Section Resubscribe.

Context (repr_builtin : value → string).

Local Abbreviation subscribers db := (getcollection db "newslettersubscriber").
Local Abbreviation by_email e := ({[ "email" := VStr e ]} : dict).

(** A second call with a payload whose fields the found document already
    holds writes nothing new. *)
Lemma subscribe_again (sub : NewsletterSubscriber.t) (db : Database)
    (c : collection) (o : ObjectId) (f : dict) :
  db !! "newslettersubscriber" = Some c →
  unique_email c → c !! o = Some f → model_dump sub ⊆ f →
  subscribe repr_builtin sub db
  = (db, Return {[ "id" := VStr (ObjectId_str o); "updated" := VBool true ]}).
Proof.
  intros Hdb Huniq Hf Hsub. rewrite subscribe_unfold.
  assert (subscribers db = c) as -> by (unfold getcollection; by rewrite Hdb).
  assert (f !! "email" = Some (VStr (NewsletterSubscriber.email sub))) as He.
  { eapply lookup_weaken; [|exact Hsub]. reflexivity. }
  rewrite (unique_email_head_select c _ o f) by done.
  rewrite (map_subseteq_union _ _ Hsub).
  rewrite (insert_id c o f) by done. by rewrite insert_id.
Qed.

(** X7. Subscribing is idempotent: from a state with at most one subscriber
    per e-mail, repeating a call leaves the database as the first call left
    it, and the repeated call answers the identifier of the first answer
    with [updated = True]. *)
Theorem subscribe_idempotent (db : Database) (sub : NewsletterSubscriber.t) :
  unique_email (subscribers db) →
  let first := subscribe repr_builtin sub db in
  let second := subscribe repr_builtin sub first.1 in
  second.1 = first.1
  ∧ ∃ o updated,
      first.2 = Return {[ "id" := VStr (ObjectId_str o); "updated" := VBool updated ]}
      ∧ second.2 = Return {[ "id" := VStr (ObjectId_str o); "updated" := VBool true ]}.
Proof.
  intros Huniq first second. subst second.
  pose proof (subscribe_preserves_unique repr_builtin sub db Huniq) as Huniq'.
  fold first in Huniq'. revert Huniq'. subst first. rewrite subscribe_unfold.
  destruct (head _) as [[o f]|] eqn:Hhd; cbn [fst snd]; intros Huniq'.
  - rewrite getcollection_insert_eq in Huniq'.
    rewrite (subscribe_again sub _ (<[o := model_dump sub ∪ f]> (subscribers db))
               o (model_dump sub ∪ f));
      [|apply lookup_insert_eq|done|apply lookup_insert_eq|apply map_union_subseteq_l].
    split; [done|]. by exists o, true.
  - rewrite getcollection_insert_eq in Huniq'.
    rewrite (subscribe_again sub _
               (<[ObjectId_new (subscribers db) := model_dump sub]> (subscribers db))
               (ObjectId_new (subscribers db)) (model_dump sub));
      [|apply lookup_insert_eq|done|apply lookup_insert_eq|done].
    split; [done|]. by exists (ObjectId_new (subscribers db)), false.
Qed.

(** X8. [subscribe] touches one document only: every other collection is
    left as it was, every stored subscriber with another e-mail keeps its
    identifier and its fields, and no identifier disappears. *)
Theorem subscribe_keeps_other_documents (db : Database) (sub : NewsletterSubscriber.t) :
  let db' := (subscribe repr_builtin sub db).1 in
  (∀ name, name ≠ "newslettersubscriber" →
     getcollection db' name = getcollection db name)
  ∧ (∀ o f, subscribers db !! o = Some f →
       f !! "email" ≠ Some (VStr (NewsletterSubscriber.email sub)) →
       subscribers db' !! o = Some f)
  ∧ dom (subscribers db) ⊆ dom (subscribers db').
Proof.
  intros db'. subst db'.
  destruct (subscribe_step repr_builtin sub db) as (o & f' & Hc & _ & _ & Hcase).
  split; [|split].
  - intros name Hname. rewrite subscribe_unfold.
    destruct (head _) as [[o1 f1]|]; simpl; by rewrite getcollection_insert_ne.
  - intros o1 f1 Hf1 He1. rewrite Hc. rewrite lookup_insert_ne; [done|].
    intros <-. destruct Hcase as [(f0 & Hf0 & He0)|[Hnone _]]; congruence.
  - rewrite Hc. apply dom_insert_subseteq.
Qed.

End Resubscribe.

Lemma subscribe_idempotent_witness :
  (subscribe sample_repr
     (NewsletterSubscriber.mk "ana@example.com" (Some "Ana") (Some "footer"))
     (subscribe sample_repr
        (NewsletterSubscriber.mk "ana@example.com" (Some "Ana") (Some "footer"))
        sample_db).1).1
  = (subscribe sample_repr
       (NewsletterSubscriber.mk "ana@example.com" (Some "Ana") (Some "footer"))
       sample_db).1.
Proof.
  apply (subscribe_idempotent sample_repr sample_db
           (NewsletterSubscriber.mk "ana@example.com" (Some "Ana") (Some "footer"))).
  exact unique_email_sample_subscribers.
Defined.

Lemma subscribe_keeps_other_documents_witness :
  getcollection
    (subscribe sample_repr
       (NewsletterSubscriber.mk "bo@example.com" None (Some "website")) sample_db).1
    "newslettersubscriber" !! 7%N
  = Some {[ "email" := VStr "ana@example.com"; "name" := VNone;
            "source" := VStr "website" ]}.
Proof.
  apply (proj1 (proj2 (subscribe_keeps_other_documents sample_repr sample_db
                         (NewsletterSubscriber.mk "bo@example.com" None (Some "website"))))).
  - reflexivity.
  - vm_compute. discriminate.
Defined.

(** ** Registrations, again *)

Lemma run_all_cons {A} (call : M Database A) (rest : list (M Database A))
    (db : Database) :
  run_all (call :: rest) db
  = ((run_all rest (call db).1).1, (call db).2 :: (run_all rest (call db).1).2).
Proof. simpl. destruct (call db) as [db' o]. simpl. by destruct (run_all rest db'). Qed.

(** X9. Registrations are never refused for lack of room: for an event that
    exists, every call of a sequence of [register_event] calls returns, each
    adds one document to the registrations, whatever the payloads (repeated
    ones included), and the events are left as they were. *)
Theorem registrations_never_refused (db : Database) (event_id : string)
    (oid : ObjectId) (ev : dict) (regs : list EventRegistration.t) :
  ObjectId_of_str event_id = Return (ObjectId12 oid) →
  getcollection db "event" !! oid = Some ev →
  let result := run_all (register_event event_id <$> regs) db in
  Forall returned result.2
  ∧ length result.2 = length regs
  ∧ size (getcollection result.1 "eventregistration")
    = (size (getcollection db "eventregistration") + length regs)%nat
  ∧ getcollection result.1 "event" = getcollection db "event".
Proof.
  intros Hoid. revert db. induction regs as [|reg regs IH]; intros db Hev result.
  - subst result. simpl. repeat split; [constructor|lia].
  - subst result. rewrite fmap_cons, run_all_cons. cbn [fst snd].
    rewrite register_event_unfold, Hoid, Hev. cbn [fst snd].
    set (c := getcollection db "eventregistration").
    set (db1 := <["eventregistration" := _]> db).
    assert (getcollection db1 "event" = getcollection db "event") as Hevents
      by (subst db1; by rewrite getcollection_insert_ne).
    destruct (IH db1) as (Hret & Hlen & Hsize & Hsame); [by rewrite Hevents|].
    split; [by constructor|]. split; [simpl; by rewrite Hlen|].
    split; [|by rewrite Hsame].
    rewrite Hsize. subst db1. rewrite getcollection_insert_eq.
    rewrite map_size_insert_None by apply ObjectId_new_fresh.
    simpl. fold c. lia.
Qed.

Lemma registrations_never_refused_witness :
  size (getcollection
          (run_all (register_event "000000000000000000000005"
                      <$> [sample_registration; sample_registration;
                           sample_registration])
             sample_db).1
          "eventregistration")
  = 3%nat.
Proof.
  apply (proj1 (proj2 (proj2 (registrations_never_refused sample_db
                                "000000000000000000000005" 5%N _
                                [sample_registration; sample_registration;
                                 sample_registration]
                                eq_refl eq_refl)))).
Defined.

(** ** Writes only add *)

Lemma insert_fresh_keeps (db : Database) (name name' : string) (d f : dict)
    (o : ObjectId) :
  getcollection db name' !! o = Some f →
  getcollection
    (<[name := <[ObjectId_new (getcollection db name) := d]> (getcollection db name)]> db)
    name' !! o = Some f.
Proof.
  intros Hf. destruct (decide (name = name')) as [<-|Hne].
  - rewrite getcollection_insert_eq, lookup_insert_ne; [done|].
    intros Heq. rewrite <- Heq, ObjectId_new_fresh in Hf. done.
  - by rewrite getcollection_insert_ne.
Qed.

(** X10. The handlers that insert through the driver only add: a document
    stored in any collection before [register_event], [register_user] or
    [track] runs is stored under the same identifier with the same fields
    afterwards, whether the call succeeds or fails. *)
Theorem inserts_keep_stored_documents (sha256_hexdigest : string → string)
    (db : Database) (name : string) (o : ObjectId) (f : dict) :
  getcollection db name !! o = Some f →
  (∀ event_id reg,
     getcollection (register_event event_id reg db).1 name !! o = Some f)
  ∧ (∀ user_name email password,
       getcollection (register_user sha256_hexdigest user_name email password db).1
         name !! o = Some f)
  ∧ (∀ utcnow event_name path metadata,
       getcollection (track utcnow event_name path metadata db).1 name !! o = Some f).
Proof.
  intros Hf. split; [|split].
  - intros event_id reg. rewrite register_event_unfold.
    destruct (ObjectId_of_str event_id) as [[oid|binary]|e]; [|done|done].
    destruct (getcollection db "event" !! oid); [|done].
    by apply insert_fresh_keeps.
  - intros user_name email password. rewrite register_user_unfold.
    destruct (head _); [done|]. by apply insert_fresh_keeps.
  - intros utcnow event_name path metadata. unfold track, bind, ret.
    rewrite insert_one_fresh by reflexivity. by apply insert_fresh_keeps.
Qed.

Lemma inserts_keep_stored_documents_witness :
  getcollection (track 0 "page_view" (Some "/menu") None sample_db).1 "menuitem" !! 2%N
  = Some {[ "title" := VStr "Pumpkin latte"; "category" := VStr "seasonal";
            "is_active" := VBool false ]}.
Proof.
  apply (proj2 (proj2 (inserts_keep_stored_documents sample_digest sample_db
                         "menuitem" 2%N _ eq_refl))).
Defined.

(** ** Listing *)

Section Lists.

Context (repr_builtin : value → string).

Lemma length_find (c : collection) (filt : dict) :
  length (find c filt) = size (filter (λ p, matches filt (with_id p)) c).
Proof. unfold find. by rewrite length_fmap, length_select. Qed.

(** X12. GET /api/reservations does not change the database.  With no
    e-mail, the documents listed are exactly the stored reservations, each
    with its identifier renamed, one per stored reservation.  With an
    e-mail, they are exactly the stored reservations whose ["email"] is
    that text, one per such reservation, and each carries it. *)
Theorem list_reservations_filter (db : Database) (email : option string) :
  let reservations := getcollection db "reservation" in
  ∃ docs,
    list_reservations repr_builtin email db = (db, Return docs)
    ∧ (email = None →
         (∀ r, r ∈ docs
               ↔ ∃ o f, reservations !! o = Some f
                        ∧ r = rename_id repr_builtin (with_id (o, f)))
         ∧ length docs = size reservations)
    ∧ (∀ e, email = Some e → e ≠ "" →
         (∀ r, r ∈ docs
               ↔ ∃ o f, reservations !! o = Some f
                        ∧ f !! "email" = Some (VStr e)
                        ∧ r = rename_id repr_builtin (with_id (o, f)))
         ∧ (∀ r, r ∈ docs → r !! "email" = Some (VStr e))
         ∧ length docs
           = size (filter (λ p : ObjectId * dict, p.2 !! "email" = Some (VStr e))
                     reservations)).
Proof.
  intros reservations. unfold list_reservations, bind, ret.
  rewrite get_documents_unfold. fold reservations.
  eexists. split; [reflexivity|]. split.
  - intros ->. split.
    + intros r. rewrite list_elem_of_fmap. split.
      * intros (d & -> & (o & f & Hf & -> & _)%find_elem_of). by exists o, f.
      * intros (o & f & Hf & ->). exists (with_id (o, f)). split; [done|].
        apply find_elem_of. exists o, f. split; [done|]. split; [done|].
        apply matches_empty.
    + rewrite length_fmap, length_find. f_equal.
      apply map_filter_id. intros; apply matches_empty.
  - intros e -> He. rewrite bool_decide_eq_true_2 by done.
    assert (∀ r, r ∈ rename_id repr_builtin <$> find reservations {[ "email" := VStr e ]}
              ↔ ∃ o f, reservations !! o = Some f ∧ f !! "email" = Some (VStr e)
                       ∧ r = rename_id repr_builtin (with_id (o, f))) as Hmem.
    { intros r. rewrite list_elem_of_fmap. split.
      - intros (d & -> & (o & f & Hf & -> & Hm)%find_elem_of).
        apply matches_singleton in Hm. rewrite with_id_lookup_ne in Hm by done.
        by exists o, f.
      - intros (o & f & Hf & He' & ->). exists (with_id (o, f)). split; [done|].
        apply find_elem_of. exists o, f. split; [done|]. split; [done|].
        apply matches_singleton. by rewrite with_id_lookup_ne. }
    split; [exact Hmem|]. split.
    + intros r (o & f & Hf & He' & ->)%Hmem.
      unfold rename_id. rewrite lookup_insert_ne by done.
      rewrite lookup_delete_ne by done. by rewrite with_id_lookup_ne.
    + rewrite length_fmap, length_find. f_equal.
      apply map_filter_ext. intros o f _. rewrite matches_singleton.
      by rewrite with_id_lookup_ne.
Qed.

End Lists.

Lemma list_reservations_filter_witness :
  ∃ docs,
    list_reservations sample_repr (Some "ana@example.com")
      (create_reservation sample_reservation sample_db).1
    = ((create_reservation sample_reservation sample_db).1, Return docs)
    ∧ length docs = 1%nat.
Proof.
  destruct (list_reservations_filter sample_repr
              (create_reservation sample_reservation sample_db).1
              (Some "ana@example.com")) as (docs & Hrun & _ & Hsome).
  exists docs. split; [exact Hrun|].
  destruct (Hsome "ana@example.com" eq_refl) as (_ & _ & Hlen); [discriminate|].
  rewrite Hlen. reflexivity.
Defined.

(** ** The menu, again *)

(** X13. What POST /api/menu stores and GET /api/menu shows: an item
    created with [is_active] false is stored but the menu lists the same
    items as before; an item created with [is_active] true is listed, with
    the fields of the payload and without identifier. *)
Theorem created_menu_item_visibility (db : Database) (item : MenuItem.t) :
  let db' := (create_menu_item item db).1 in
  getcollection db' "menuitem" !! ObjectId_new (getcollection db "menuitem")
  = Some (model_dump item)
  ∧ (MenuItem.is_active item = false →
       ∃ before after, (list_menu db).2 = Return before
                       ∧ (list_menu db').2 = Return after ∧ after ≡ₚ before)
  ∧ (MenuItem.is_active item = true →
       ∃ after, (list_menu db').2 = Return after ∧ model_dump item ∈ after).
Proof.
  intros db'. subst db'. unfold create_menu_item, bind, ret.
  rewrite create_document_fresh by reflexivity. cbn [fst snd].
  set (c := getcollection db "menuitem"). set (o := ObjectId_new c).
  assert (c !! o = None) as Hfresh by apply ObjectId_new_fresh.
  split; [by rewrite getcollection_insert_eq, lookup_insert_eq|].
  unfold list_menu, bind, ret. rewrite !get_documents_unfold. cbn [fst snd].
  rewrite getcollection_insert_eq. fold c. split.
  - intros Hinactive. eexists _, _. split; [reflexivity|].
    split; [reflexivity|]. apply fmap_Permutation.
    apply NoDup_Permutation; [apply NoDup_find..|]. intros d.
    rewrite !find_elem_of. split.
    + intros (o' & f & Hf & -> & Hm). exists o', f. split; [|done].
      apply lookup_insert_Some in Hf as [[<- <-]|[_ Hf]]; [|done].
      apply matches_singleton in Hm. rewrite with_id_lookup_ne in Hm by done.
      destruct item; simpl in *. subst. discriminate.
    + intros (o' & f & Hf & -> & Hm). exists o', f. split; [|done].
      rewrite lookup_insert_ne; [done|]. intros <-. congruence.
  - intros Hactive. eexists. split; [reflexivity|].
    apply list_elem_of_fmap. exists (with_id (o, model_dump item)). split.
    + unfold with_id. simpl. rewrite delete_insert_eq.
      symmetry. apply delete_id. reflexivity.
    + apply find_elem_of. exists o, (model_dump item).
      rewrite lookup_insert_eq. split; [done|]. split; [done|].
      apply matches_singleton. rewrite with_id_lookup_ne by done.
      destruct item; simpl in *. by subst.
Qed.

Lemma created_menu_item_visibility_witness :
  ∃ after,
    (list_menu (create_menu_item
                  (MenuItem.mk "Cortado" None (S754_zero false) "coffee" None true)
                  sample_db).1).2
    = Return after
    ∧ model_dump (MenuItem.mk "Cortado" None (S754_zero false) "coffee" None true) ∈ after.
Proof.
  apply (proj2 (proj2 (created_menu_item_visibility sample_db
                         (MenuItem.mk "Cortado" None (S754_zero false) "coffee" None true)))).
  reflexivity.
Defined.

(** ** The diagnostic route, again *)

(** X14. The status object of GET /test always has the six fields it starts
    with, and no other.  Without a handle, the URL, the name and the
    collections keep their initial values.  With a handle, [database_url]
    tells whether DATABASE_URL is set to a non-empty text, decided before
    the database is probed; [database_name] is the handle's name, or
    "Connected" when the handle has no such attribute; when reading the name
    raises, the name, the connection status and the collections keep their
    initial values. *)
Theorem test_database_fields (db : option handle) (environ : gmap string string) :
  ∃ response,
    test_database db environ = Return response
    ∧ dom response = dom initial_response
    ∧ match db with
      | None =>
          response !! "database_url" = Some VNone
          ∧ response !! "database_name" = Some VNone
          ∧ response !! "collections" = Some (VList [])
      | Some h =>
          response !! "database_url"
          = Some (VStr (if truthy_str (environ !! "DATABASE_URL")
                        then "✅ Set" else "❌ Not Set"))
          ∧ match handle_name h with
            | AttrMissing => response !! "database_name" = Some (VStr "✅ Connected")
            | AttrValue v => response !! "database_name" = Some v
            | AttrRaises _ =>
                response !! "database_name" = Some VNone
                ∧ response !! "connection_status" = Some (VStr "Not Connected")
                ∧ response !! "collections" = Some (VList [])
            end
      end.
Proof.
  destruct db as [[[|msg|v] [names|e]]|].
  all: eexists; split; [reflexivity|].
  all: split; [reflexivity|].
  all: repeat split.
Qed.

(** ** The process entry point, again *)










(** ** The create handlers *)

Lemma create_document_adds_one `{BaseModel A} (db : Database) (name : string)
    (data : A) :
  model_dump data !! "_id" = None →
  adds_one_to name db (create_document name data db).1
  ∧ (create_document name data db).2
    = Return (ObjectId_str (ObjectId_new (getcollection db name))).
Proof.
  intros Hraw. rewrite create_document_fresh by done. cbn [fst snd].
  split; [|done]. split; [|split].
  - rewrite getcollection_insert_eq.
    by rewrite map_size_insert_None by apply ObjectId_new_fresh.
  - intros name' o f Hf. by apply insert_fresh_keeps.
  - intros name' Hne. by rewrite getcollection_insert_ne.
Qed.

Lemma BlogPost_dump_published_at (post : BlogPost.t) (t : Z) :
  model_dump (BlogPost.mk (BlogPost.title post) (BlogPost.content post)
                (BlogPost.image_url post) (BlogPost.author post)
                (BlogPost.tags post) (Some t))
  = <["published_at" := VDatetime t]> (model_dump post).
Proof.
  apply map_eq; intros k. unfold model_dump, BlogPost_model. cbn [optional].
  destruct (decide (k = "published_at")) as [->|Hk].
  - rewrite lookup_insert_eq. by repeat (rewrite lookup_insert_ne by done).
  - rewrite (lookup_insert_ne _ "published_at") by done.
    repeat (destruct (decide (k = "title")) as [->|];
              [by rewrite !lookup_insert_eq|rewrite !(lookup_insert_ne _ "title") by done]).
    repeat (destruct (decide (k = "content")) as [->|];
              [by rewrite !lookup_insert_eq|rewrite !(lookup_insert_ne _ "content") by done]).
    repeat (destruct (decide (k = "image_url")) as [->|];
              [by rewrite !lookup_insert_eq|rewrite !(lookup_insert_ne _ "image_url") by done]).
    repeat (destruct (decide (k = "author")) as [->|];
              [by rewrite !lookup_insert_eq|rewrite !(lookup_insert_ne _ "author") by done]).
    repeat (destruct (decide (k = "tags")) as [->|];
              [by rewrite !lookup_insert_eq|rewrite !(lookup_insert_ne _ "tags") by done]).
    by rewrite !lookup_singleton_ne by done.
Qed.

(** X16. Each create handler stores the dump of its payload, as it is, under
    one new identifier of its own collection, and answers with that very
    identifier as a text: [create_menu_item], [create_event] and
    [add_gallery_image] with the identifier alone, [create_reservation] with
    the status "confirmed" beside it, [contact] with [received = True],
    [create_post] after setting a missing [published_at] to the clock's
    reading.  The identifier was not in use, the collection has one more
    document, no stored document changes and no other collection does. *)
Theorem create_handlers_add_one (db : Database) :
  let new name := ObjectId_new (getcollection db name) in
  let added name doc :=
    <[name := <[new name := doc]> (getcollection db name)]> db in
  let answer name := VStr (ObjectId_str (new name)) in
  (∀ item, create_menu_item item db
           = (added "menuitem" (model_dump item),
              Return {[ "id" := answer "menuitem" ]}))
  ∧ (∀ res, create_reservation res db
            = (added "reservation" (model_dump res),
               Return {[ "id" := answer "reservation";
                         "status" := VStr "confirmed" ]}))
  ∧ (∀ event, create_event event db
              = (added "event" (model_dump event),
                 Return {[ "id" := answer "event" ]}))
  ∧ (∀ utcnow post,
       create_post utcnow post db
       = (added "blogpost"
            (<["published_at" :=
                 VDatetime (default utcnow (BlogPost.published_at post))]>
               (model_dump post)),
          Return {[ "id" := answer "blogpost" ]}))
  ∧ (∀ img, add_gallery_image img db
            = (added "galleryimage" (model_dump img),
               Return {[ "id" := answer "galleryimage" ]}))
  ∧ (∀ msg, contact msg db
            = (added "contactmessage" (model_dump msg),
               Return {[ "id" := answer "contactmessage";
                         "received" := VBool true ]}))
  ∧ (∀ name doc,
       getcollection db name !! new name = None
       ∧ getcollection (added name doc) name !! new name = Some doc
       ∧ adds_one_to name db (added name doc)).
Proof.
  intros new added answer.
  split; [|split; [|split; [|split; [|split; [|split]]]]].
  - intros item. unfold create_menu_item, bind, ret.
    by rewrite create_document_fresh by reflexivity.
  - intros res. unfold create_reservation, bind, ret.
    by rewrite create_document_fresh by reflexivity.
  - intros event. unfold create_event, bind, ret.
    by rewrite create_document_fresh by reflexivity.
  - intros utcnow post. unfold create_post, bind, ret.
    rewrite <- BlogPost_dump_published_at.
    destruct post as [title content image_url author tags [t|]]; simpl;
      by rewrite create_document_fresh by reflexivity.
  - intros img. unfold add_gallery_image, bind, ret.
    by rewrite create_document_fresh by reflexivity.
  - intros msg. unfold contact, bind, ret.
    by rewrite create_document_fresh by reflexivity.
  - intros name doc. split; [apply ObjectId_new_fresh|]. split; [|split; [|split]].
    + unfold added. by rewrite getcollection_insert_eq, lookup_insert_eq.
    + unfold added. rewrite getcollection_insert_eq.
      by rewrite map_size_insert_None by apply ObjectId_new_fresh.
    + intros name' o f Hf. by apply insert_fresh_keeps.
    + intros name' Hne. unfold added. by rewrite getcollection_insert_ne.
Qed.

(** ** Spellings of an identifier *)

(** X17. [register_event] accepts every spelling of the event's identifier
    and stores the spelling it was given: two path texts that denote the
    same identifier (upper-case and lower-case digits, say) get the same
    answer and add a document under the same new identifier, and each
    stored document's ["event_id"] is the path text of its own call, not a
    normal form. *)
Theorem register_event_keeps_spelling (db : Database) (id1 id2 : string)
    (oid : ObjectId) (ev : dict) (reg : EventRegistration.t) :
  ObjectId_of_str id1 = Return (ObjectId12 oid) →
  ObjectId_of_str id2 = Return (ObjectId12 oid) →
  getcollection db "event" !! oid = Some ev →
  let new_id := ObjectId_new (getcollection db "eventregistration") in
  (register_event id1 reg db).2 = (register_event id2 reg db).2
  ∧ (∃ doc : dict,
       getcollection (register_event id1 reg db).1 "eventregistration" !! new_id
       = Some doc ∧ doc !! "event_id" = Some (VStr id1))
  ∧ (∃ doc : dict,
       getcollection (register_event id2 reg db).1 "eventregistration" !! new_id
       = Some doc ∧ doc !! "event_id" = Some (VStr id2)).
Proof.
  intros H1 H2 Hev new_id. rewrite !register_event_unfold, H1, H2, Hev.
  cbn [fst snd]. rewrite !getcollection_insert_eq. split; [done|].
  split; eexists; (split; [apply lookup_insert_eq|apply lookup_insert_eq]).
Qed.

Lemma register_event_keeps_spelling_witness :
  (register_event "00000000000000000000000a" sample_registration
     (<["event" := <[10%N := ∅]> sample_events]> sample_db)).2
  = (register_event "00000000000000000000000A" sample_registration
       (<["event" := <[10%N := ∅]> sample_events]> sample_db)).2.
Proof.
  refine (proj1 (register_event_keeps_spelling
                   (<["event" := <[10%N := ∅]> sample_events]> sample_db)
                   "00000000000000000000000a" "00000000000000000000000A" 10%N
                   (∅ : dict) sample_registration _ _ _)); reflexivity.
Defined.
